(** * Audit checks of the platform kit: a shallow embedding

    The development embeds [scripts/audit/lib.py] and the two checks
    [scripts/audit/checks/check_domain_policy.py] and
    [scripts/audit/checks/check_mailgun.py].

    Modelling conventions.
    - A Python [str] is a [string], read as UTF-8 text.  [lower], [strip]
      and the regular-expression matcher act on ASCII characters and leave
      the bytes of other characters alone, which is what Python does on
      ASCII text.  [upper] also follows Python on the characters whose
      upper-case form holds an ASCII letter.
    - A Python [int] is a [Z].
    - The operating system is a record of oracles ([System]): the process
      environment, the outcome of [subprocess.run] and of [urlopen].  The
      oracles thread an abstract world, so two identical calls may answer
      differently, and every call is logged.
    - Exceptions are explicit: a computation returns [inl e] when it raises
      [e] and [inr v] when it returns [v]. *)

From Stdlib Require Import ZArith List Bool Ascii String Lia DecimalString.
Import ListNotations.

#[local] Set Warnings "-register-all".
#[local] Open Scope string_scope.
#[local] Open Scope Z_scope.

(* ================================================================== *)
(** * Python strings *)
(* ================================================================== *)

Module Py.

(** [len(s)] *)
Definition len (s : string) : Z := Z.of_nat (String.length s).

(** Truth value of a string: [bool(s)]. *)
Definition truthy (s : string) : bool :=
  match s with
  | EmptyString => false
  | String _ _ => true
  end.

(** [a or b] on strings. *)
Definition or_else (a b : string) : string := if truthy a then a else b.

(** [c * n] for a one-character string [c]; empty when [n <= 0]. *)
Definition mul (c : ascii) (n : Z) : string :=
  string_of_list_ascii (repeat c (Z.to_nat n)).

(** [s[start:]] with Python's treatment of negative and oversized bounds:
    a negative [start] counts from the end and is clipped at 0. *)
Definition slice_from (s : string) (start : Z) : string :=
  let n := len s in
  let i := if start <? 0 then Z.max (n + start) 0 else Z.min start n in
  string_of_list_ascii (skipn (Z.to_nat i) (list_ascii_of_string s)).

(** [l.append(x)] *)
Definition append {A} (l : list A) (x : A) : list A := (l ++ [x])%list.

(** [s[:stop]] on a list, for [stop >= 0]. *)
Definition take {A} (stop : nat) (l : list A) : list A := firstn stop l.

(** ASCII whitespace, as [str.isspace] and the class [\s] see it:
    9-13, 28-31 and 32. *)
Definition isspace (c : ascii) : bool :=
  let n := nat_of_ascii c in
  ((9 <=? n) && (n <=? 13) || (28 <=? n) && (n <=? 32))%nat.

Fixpoint lstrip (s : string) : string :=
  match s with
  | EmptyString => EmptyString
  | String c r => if isspace c then lstrip r else s
  end.

(** [rstrip]: a character is dropped when it is white and everything after
    it has been dropped. *)
Fixpoint rstrip (s : string) : string :=
  match s with
  | EmptyString => EmptyString
  | String c r =>
      match rstrip r with
      | EmptyString => if isspace c then EmptyString else String c EmptyString
      | r' => String c r'
      end
  end.

(** [s.strip()] *)
Definition strip (s : string) : string := rstrip (lstrip s).

Definition is_upper (c : ascii) : bool :=
  let n := nat_of_ascii c in ((65 <=? n) && (n <=? 90))%nat.

Definition is_lower (c : ascii) : bool :=
  let n := nat_of_ascii c in ((97 <=? n) && (n <=? 122))%nat.

Definition lower_char (c : ascii) : ascii :=
  if is_upper c then ascii_of_nat (nat_of_ascii c + 32) else c.

Definition upper_char (c : ascii) : ascii :=
  if is_lower c then ascii_of_nat (nat_of_ascii c - 32) else c.

Fixpoint map_chars (f : ascii -> ascii) (s : string) : string :=
  match s with
  | EmptyString => EmptyString
  | String c r => String (f c) (map_chars f r)
  end.

(** [s.lower()] *)
Definition lower (s : string) : string := map_chars lower_char s.

(** A character above 127, from the decimal values of its UTF-8 bytes. *)
Definition utf8 (l : list Z) : string :=
  string_of_list_ascii (map (fun z => ascii_of_N (Z.to_N z)) l).

(** The characters above 127 whose upper-case form holds an ASCII letter,
    with that form: U+00DF, U+0131, U+0149, U+017F, U+01F0, U+1E96 to
    U+1E9A and U+FB00 to U+FB06. *)
Definition special_upper : list (string * string) :=
  [ (utf8 [195; 159], "SS");
    (utf8 [196; 177], "I");
    (utf8 [197; 137], utf8 [202; 188] ++ "N");
    (utf8 [197; 191], "S");
    (utf8 [199; 176], "J" ++ utf8 [204; 140]);
    (utf8 [225; 186; 150], "H" ++ utf8 [204; 177]);
    (utf8 [225; 186; 151], "T" ++ utf8 [204; 136]);
    (utf8 [225; 186; 152], "W" ++ utf8 [204; 138]);
    (utf8 [225; 186; 153], "Y" ++ utf8 [204; 138]);
    (utf8 [225; 186; 154], "A" ++ utf8 [202; 190]);
    (utf8 [239; 172; 128], "FF");
    (utf8 [239; 172; 129], "FI");
    (utf8 [239; 172; 130], "FL");
    (utf8 [239; 172; 131], "FFI");
    (utf8 [239; 172; 132], "FFL");
    (utf8 [239; 172; 133], "ST");
    (utf8 [239; 172; 134], "ST") ].

Fixpoint starts_with (key s : string) : bool :=
  match key, s with
  | EmptyString, _ => true
  | String k key', String c s' => Ascii.eqb k c && starts_with key' s'
  | String _ _, EmptyString => false
  end.

Fixpoint find_special (table : list (string * string)) (s : string)
    : option (string * string) :=
  match table with
  | [] => None
  | (key, form) :: t =>
      if starts_with key s then Some (key, form) else find_special t s
  end.

(** Upper-casing from the left; [skip] counts the bytes still to pass of
    a character that has been replaced. *)
Fixpoint upper_from (skip : nat) (s : string) : string :=
  match s with
  | EmptyString => EmptyString
  | String c r =>
      match skip with
      | S k => upper_from k r
      | O =>
          match find_special special_upper s with
          | Some (key, form) => form ++ upper_from (String.length key - 1) r
          | None => String (upper_char c) (upper_from 0 r)
          end
      end
  end.

(** [s.upper()] *)
Definition upper (s : string) : string := upper_from 0 s.

Definition is_ascii_char (c : ascii) : bool := (nat_of_ascii c <? 128)%nat.

(** [s.isascii()] *)
Fixpoint isascii (s : string) : bool :=
  match s with
  | EmptyString => true
  | String c r => is_ascii_char c && isascii r
  end.

(** [needle in hay] *)
Fixpoint contains (needle hay : string) : bool :=
  String.prefix needle hay ||
  match hay with
  | EmptyString => false
  | String _ r => contains needle r
  end.

(** [s.split(sep)] for a one-character separator: never empty. *)
Fixpoint split (sep : ascii) (s : string) : list string :=
  match s with
  | EmptyString => [EmptyString]
  | String c r =>
      if Ascii.eqb c sep then EmptyString :: split sep r
      else match split sep r with
           | h :: t => String c h :: t
           | [] => [String c EmptyString]
           end
  end.

(** [s.replace(c, '')] for a one-character [c]. *)
Fixpoint remove_char (c : ascii) (s : string) : string :=
  match s with
  | EmptyString => EmptyString
  | String d r =>
      if Ascii.eqb d c then remove_char c r else String d (remove_char c r)
  end.

(** [sep.join(l)] *)
Fixpoint join (sep : string) (l : list string) : string :=
  match l with
  | [] => EmptyString
  | [x] => x
  | x :: r => x ++ sep ++ join sep r
  end.

(** The newline character. *)
Definition nl : ascii := ascii_of_nat 10.

(** The double quote. *)
Definition dquote : ascii := ascii_of_nat 34.

End Py.

(* ================================================================== *)
(** * lib.py: result builders *)
(* ================================================================== *)

(** JSON-serialisable payload values. *)
Inductive pyval : Type :=
| PNone
| PInt (z : Z)
| PStr (s : string)
| PList (l : list pyval)
| PTuple (l : list pyval)
| PDict (d : list (string * pyval)).

(** A [data] mapping keeps its insertion order. *)
Definition pydict := list (string * pyval).

Fixpoint dict_get (d : pydict) (k : string) : option pyval :=
  match d with
  | [] => None
  | (k', v) :: r => if String.eqb k' k then Some v else dict_get r k
  end.

Definition PStrs (l : list string) : pyval := PList (map PStr l).

Inductive Status := StOk | StFail | StWarn | StSkip.

Definition status_str (s : Status) : string :=
  match s with
  | StOk => "ok" | StFail => "fail" | StWarn => "warn" | StSkip => "skip"
  end.

Record Result := mkResult {
  status : Status;
  code : string;
  data : pydict
}.

(** [data or {}] *)
Definition data_or_empty (d : option pydict) : pydict :=
  match d with
  | Some d => d
  | None => []
  end.

Definition ok (code : string) (data : option pydict) : Result :=
  mkResult StOk code (data_or_empty data).

Definition fail (code : string) (data : option pydict) : Result :=
  mkResult StFail code (data_or_empty data).

Definition warn (code : string) (data : option pydict) : Result :=
  mkResult StWarn code (data_or_empty data).

Definition skip (code : string) (reason : string) : Result :=
  mkResult StSkip code [("reason", PStr reason)].

(* ================================================================== *)
(** * lib.py: security helpers *)
(* ================================================================== *)

(** The mask character. *)
Definition mask : ascii := "*"%char.

(** [redact(value, visible_chars=4)] *)
Definition redact (value : string) (visible_chars : Z) : string :=
  if negb (Py.truthy value) then "<empty>"
  else if Py.len value <=? visible_chars then Py.mul mask (Py.len value)
  else Py.mul mask (Py.len value - visible_chars)
       ++ Py.slice_from value (- visible_chars).

(* ================================================================== *)
(** * The operating system *)
(* ================================================================== *)

(** Exceptions derived from [Exception] that the library handles.
    [OtherException] stands for every other subclass of [Exception]. *)
Inductive py_exception : Type :=
| TimeoutExpired (msg : string)
| CalledProcessError (returncode : Z) (stdout stderr : option string)
    (msg : string)
| FileNotFoundError (msg : string)
| HTTPError (http_code : Z) (body : option string) (msg : string)
| URLError (reason : string)
| OtherException (msg : string).

(** Decimal rendering of an integer. *)
Definition str_of_Z (z : Z) : string :=
  NilEmpty.string_of_int (Z.to_int z).

(** [str(e)] *)
Definition exc_str (e : py_exception) : string :=
  match e with
  | TimeoutExpired msg => msg
  | CalledProcessError _ _ _ msg => msg
  | FileNotFoundError msg => msg
  | HTTPError c _ msg => "HTTP Error " ++ str_of_Z c ++ ": " ++ msg
  | URLError reason => "<urlopen error " ++ reason ++ ">"
  | OtherException msg => msg
  end.

(** What a finished child process leaves behind (text mode). *)
Record Exited := mkExited {
  exit_code : Z;
  out_text : string;
  err_text : string
}.

(** What a successful [urlopen] yields, body already decoded. *)
Record Response := mkResponse {
  resp_status : Z;
  resp_body : string;
  resp_headers : list (string * string)
}.

Record Request := mkRequest {
  req_url : string;
  req_method : string;
  req_headers : list (string * string)
}.

(** External calls, in the order they are made. *)
Inductive call : Type :=
| Spawn (cmd : list string) (timeout : Z)
| UrlOpen (req : Request) (timeout : Z).

Record System (W : Type) := mkSystem {
  environ : string -> option string;
  spawn : list string -> Z -> W -> (py_exception + Exited) * W;
  urlopen : Request -> Z -> W -> (py_exception + Response) * W
}.

Arguments environ {W}.
Arguments spawn {W}.
Arguments urlopen {W}.

Record State (W : Type) := mkState {
  world : W;
  calls : list call
}.

Arguments mkState {W}.
Arguments world {W}.
Arguments calls {W}.

(** Computations that may raise and that talk to the system. *)
Definition M (W A : Type) : Type := State W -> (py_exception + A) * State W.

Definition ret {W A} (a : A) : M W A := fun st => (inr a, st).

Definition raise {W A} (e : py_exception) : M W A := fun st => (inl e, st).

Definition bind {W A B} (m : M W A) (k : A -> M W B) : M W B :=
  fun st =>
    match m st with
    | (inl e, st') => (inl e, st')
    | (inr a, st') => k a st'
    end.

(** [try: body except ...: handler]; a handler answering [None] does not
    match the exception, which then propagates. *)
Definition try_except {W A} (body : M W A)
    (handler : py_exception -> option (M W A)) : M W A :=
  fun st =>
    match body st with
    | (inl e, st') =>
        match handler e with
        | Some h => h st'
        | None => (inl e, st')
        end
    | (inr a, st') => (inr a, st')
    end.

Declare Scope py_scope.
Delimit Scope py_scope with py.
Notation "x <- m ;; k" := (bind m (fun x => k))
  (at level 61, m at next level, right associativity) : py_scope.
#[local] Open Scope py_scope.

(** [os.getenv(name, default)] *)
Definition os_getenv {W} (sys : System W) (name default : string) : string :=
  match environ sys name with
  | Some v => v
  | None => default
  end.


(** [get_secret(name, default="")] *)
Definition get_secret {W} (sys : System W) (name default : string) : string :=
  Py.strip (os_getenv sys name default).

(* ================================================================== *)
(** * lib.py: command execution *)
(* ================================================================== *)

(** The dictionary built by [run_cmd]; [cmd_error = None] when the key
    ["error"] is absent. *)
Record CmdResult := mkCmdResult {
  cmd_success : bool;
  cmd_returncode : Z;
  cmd_stdout : option string;
  cmd_stderr : option string;
  cmd_error : option string
}.

(** [subprocess.CompletedProcess] *)
Record CompletedProcess := mkCompleted {
  cp_returncode : Z;
  cp_stdout : option string;
  cp_stderr : option string
}.

Definition captured (capture : bool) (s : string) : option string :=
  if capture then Some s else None.

(** [subprocess.run(cmd, capture_output=capture, text=True,
    timeout=timeout, check=check)]: with [check], a non-zero exit code is
    raised as [CalledProcessError] (its message is abridged here; no caller
    reads it). *)
Definition subprocess_run {W} (sys : System W) (cmd : list string)
    (capture : bool) (timeout : Z) (check : bool) : M W CompletedProcess :=
  fun st =>
    let st1 := mkState (world st) (calls st ++ [Spawn cmd timeout]) in
    match spawn sys cmd timeout (world st1) with
    | (inl e, w) => (inl e, mkState w (calls st1))
    | (inr x, w) =>
        let so := captured capture (out_text x) in
        let se := captured capture (err_text x) in
        if check && negb (exit_code x =? 0)
        then (inl (CalledProcessError (exit_code x) so se
                     "Command returned non-zero exit status"),
              mkState w (calls st1))
        else (inr (mkCompleted (exit_code x) so se), mkState w (calls st1))
    end.

Definition if_capture (capture : bool) (s : option string) : option string :=
  if capture then s else None.

(** [run_cmd(cmd, timeout=30, capture=True, check=False)] *)
Definition run_cmd {W} (sys : System W) (cmd : list string) (timeout : Z)
    (capture check : bool) : M W CmdResult :=
  try_except
    (result <- subprocess_run sys cmd capture timeout check ;;
     ret (mkCmdResult (cp_returncode result =? 0) (cp_returncode result)
            (if_capture capture (cp_stdout result))
            (if_capture capture (cp_stderr result))
            None))
    (fun e =>
       match e with
       | TimeoutExpired _ =>
           Some (ret (mkCmdResult false (-1) None
                   (Some ("Command timed out after " ++ str_of_Z timeout
                          ++ "s"))
                   (Some "timeout")))
       | CalledProcessError rc so se _ =>
           Some (ret (mkCmdResult false rc
                   (if_capture capture so) (if_capture capture se)
                   (Some "nonzero_exit")))
       | FileNotFoundError msg =>
           Some (ret (mkCmdResult false (-1) None (Some msg)
                   (Some "command_not_found")))
       | HTTPError _ _ _ | URLError _ | OtherException _ =>
           Some (ret (mkCmdResult false (-1) None (Some (exc_str e))
                   (Some "exception")))
       end).

(* ================================================================== *)
(** * lib.py: HTTP helpers *)
(* ================================================================== *)

(** The dictionary built by [http_get]; [http_error = None] and
    [http_headers = None] when the key is absent. *)
Record HttpResult := mkHttpResult {
  http_success : bool;
  http_status_code : option Z;
  http_body : option string;
  http_error : option string;
  http_headers : option (list (string * string))
}.

(** [key.capitalize()] *)
Definition capitalize (s : string) : string :=
  match s with
  | EmptyString => EmptyString
  | String c r => String (Py.upper_char c) (Py.lower r)
  end.

Fixpoint header_set (h : list (string * string)) (k v : string)
    : list (string * string) :=
  match h with
  | [] => [(k, v)]
  | (k', v') :: r =>
      if String.eqb k' k then (k, v) :: r else (k', v') :: header_set r k v
  end.

(** [req.add_header(key, value)] *)
Definition add_header (req : Request) (key value : string) : Request :=
  mkRequest (req_url req) (req_method req)
    (header_set (req_headers req) (capitalize key) value).

(** [urllib.request.urlopen(req, timeout=timeout)], read and decoded. *)
Definition py_urlopen {W} (sys : System W) (req : Request) (timeout : Z)
    : M W Response :=
  fun st =>
    let log := (calls st ++ [UrlOpen req timeout])%list in
    match urlopen sys req timeout (world st) with
    | (r, w) => (r, mkState w log)
    end.

(** [http_get(url, headers=None, timeout=10)] *)
Definition http_get {W} (sys : System W) (url : string)
    (headers : option (list (string * string))) (timeout : Z)
    : M W HttpResult :=
  let req := mkRequest url "GET" [] in
  let req :=
    match headers with
    | Some hs => fold_left (fun r kv => add_header r (fst kv) (snd kv)) hs req
    | None => req
    end in
  try_except
    (resp <- py_urlopen sys req timeout ;;
     ret (mkHttpResult true (Some (resp_status resp)) (Some (resp_body resp))
            None (Some (resp_headers resp))))
    (fun e =>
       match e with
       | HTTPError c body _ =>
           Some (ret (mkHttpResult false (Some c) body (Some (exc_str e)) None))
       | URLError reason =>
           Some (ret (mkHttpResult false None None (Some reason) None))
       | _ =>
           Some (ret (mkHttpResult false None None (Some (exc_str e)) None))
       end).

(* ================================================================== *)
(** * lib.py: DNS helpers *)
(* ================================================================== *)

(** Truth value of a value that is a string or [None]. *)
Definition opt_truthy (o : option string) : bool :=
  match o with
  | Some s => Py.truthy s
  | None => false
  end.

(** [r.get("stdout") or ""] *)
Definition stdout_or_empty (r : CmdResult) : string :=
  match cmd_stdout r with
  | Some s => s
  | None => ""
  end.

(** [dig_txt(name)] *)
Definition dig_txt {W} (sys : System W) (name : string) : M W string :=
  r <- run_cmd sys ["dig"; "+short"; "TXT"; name] 30 true false ;;
  if negb (cmd_success r) then ret ""
  else ret (Py.strip (Py.remove_char Py.dquote (stdout_or_empty r))).

(** [dig_mx(name)] *)
Definition dig_mx {W} (sys : System W) (name : string) : M W string :=
  r <- run_cmd sys ["dig"; "+short"; "MX"; name] 30 true false ;;
  if negb (cmd_success r) then ret ""
  else ret (Py.strip (stdout_or_empty r)).

(** [dig_cname(name)] *)
Definition dig_cname {W} (sys : System W) (name : string) : M W string :=
  r <- run_cmd sys ["dig"; "+short"; "CNAME"; name] 30 true false ;;
  if negb (cmd_success r) then ret ""
  else ret (Py.strip (stdout_or_empty r)).

(** [dig_a(name)] *)
Definition dig_a {W} (sys : System W) (name : string) : M W string :=
  r <- run_cmd sys ["dig"; "+short"; "A"; name] 30 true false ;;
  if negb (cmd_success r) then ret ""
  else ret (Py.strip (stdout_or_empty r)).

(* ================================================================== *)
(** * Regular expressions, as far as the checks use them *)
(* ================================================================== *)

Module Re.

(** One-character matchers: a literal, [.] and [\s]. *)
Inductive atom : Type :=
| Lit (c : ascii)
| AnyChar
| Space.

(** An atom, possibly under [*] or [+]. *)
Inductive piece : Type :=
| Once (a : atom)
| Star (a : atom)
| Plus (a : atom).

Definition regex := list piece.

Inductive token : Type :=
| TAtom (a : atom)
| TStar
| TPlus.

(** The character after a backslash: [\s] is the whitespace class, any
    other escaped character stands for itself. *)
Definition escaped (c : ascii) : atom :=
  if Ascii.eqb c "s" then Space else Lit c.

Fixpoint lex (s : string) : list token :=
  match s with
  | EmptyString => []
  | String "\" (String c r) => TAtom (escaped c) :: lex r
  | String "." r => TAtom AnyChar :: lex r
  | String "*" r => TStar :: lex r
  | String "+" r => TPlus :: lex r
  | String c r => TAtom (Lit c) :: lex r
  end.

Fixpoint group (ts : list token) : regex :=
  match ts with
  | [] => []
  | TAtom a :: TStar :: r => Star a :: group r
  | TAtom a :: TPlus :: r => Plus a :: group r
  | TAtom a :: r => Once a :: group r
  | _ :: r => group r
  end.

(** [re.compile(pattern)] for patterns made of literals, escapes, [.],
    [\s] and the postfix operators [*] and [+]. *)
Definition compile (pattern : string) : regex := group (lex pattern).

(** Matching one character; [ignorecase] is the flag [re.IGNORECASE].
    The dot does not match a newline. *)
Definition atom_match (ignorecase : bool) (a : atom) (c : ascii) : bool :=
  match a with
  | Lit d =>
      if ignorecase then Ascii.eqb (Py.lower_char d) (Py.lower_char c)
      else Ascii.eqb d c
  | AnyChar => negb (Ascii.eqb c Py.nl)
  | Space => Py.isspace c
  end.

(** Zero or more characters matching [a], then the rest [k]. *)
Fixpoint match_star (ignorecase : bool) (a : atom) (k : string -> bool)
    (s : string) : bool :=
  k s ||
  match s with
  | EmptyString => false
  | String c r => atom_match ignorecase a c && match_star ignorecase a k r
  end.

(** Does [re] match a prefix of [s]? *)
Fixpoint match_here (ignorecase : bool) (re : regex) (s : string) : bool :=
  match re with
  | [] => true
  | Once a :: re' =>
      match s with
      | EmptyString => false
      | String c r => atom_match ignorecase a c && match_here ignorecase re' r
      end
  | Star a :: re' => match_star ignorecase a (match_here ignorecase re') s
  | Plus a :: re' =>
      match s with
      | EmptyString => false
      | String c r =>
          atom_match ignorecase a c
          && match_star ignorecase a (match_here ignorecase re') r
      end
  end.

(** [bool(re.search(pattern, s, flags))] *)
Fixpoint search_re (ignorecase : bool) (re : regex) (s : string) : bool :=
  match_here ignorecase re s ||
  match s with
  | EmptyString => false
  | String _ r => search_re ignorecase re r
  end.

Definition search (pattern : string) (s : string) (ignorecase : bool)
    : bool :=
  search_re ignorecase (compile pattern) s.

End Re.

(* ================================================================== *)
(** * checks/check_domain_policy.py *)
(* ================================================================== *)

Module DomainPolicy.

Definition FORBIDDEN_PATTERNS : list string :=
  [ "insightpulseai\.net" ].

Definition meta_patterns : list string :=
  [ "no\s+insightpulseai\.net";
    "forbidden.*insightpulseai\.net";
    "checking.*insightpulseai\.net";
    "insightpulseai\.net.*forbidden";
    "block.*insightpulseai\.net";
    "ensure.*insightpulseai\.net";
    "insightpulseai\\\.net";
    "FAIL.*insightpulseai\.net";
    "pattern.*insightpulseai\.net";
    "policy.*insightpulseai\.net" ].

(** [is_policy_meta_reference(line)]: the loop returns at the first
    pattern that is found. *)
Definition is_policy_meta_reference (line : string) : bool :=
  let line_lower := Py.lower line in
  existsb (fun mp => Re.search mp line_lower true) meta_patterns.

(** The ripgrep command line for one pattern. *)
Definition rg_cmd (pattern : string) : list string :=
  [ "rg"; "-n"; "--hidden"; "--no-ignore-vcs";
    "--glob"; "!.git/**";
    "--glob"; "!node_modules/**";
    "--glob"; "!.venv/**";
    "--glob"; "!venv/**";
    "--glob"; "!dist/**";
    "--glob"; "!build/**";
    "--glob"; "!.next/**";
    "--glob"; "!__pycache__/**";
    "--glob"; "!*.pyc";
    "--glob"; "!*.pyo";
    "--glob"; "!*.so";
    "--glob"; "!*.dylib";
    pattern; "." ].

Definition fix_command : string :=
  "Run: find . -type f -not -path '*/.git/*' -print0 | "
  ++ "xargs -0 perl -pi -e 's/insightpulseai\.net/insightpulseai.com/g'".

(** The lines of the search output that are not meta-references. *)
Definition real_violations (stdout : string) : list string :=
  filter (fun m => negb (is_policy_meta_reference m))
         (Py.split Py.nl (Py.strip stdout)).

(** The first [if] of the loop body: [Some r] when the check returns [r]
    there, [None] when control falls through. *)
Definition report_violations (pattern : string) (result : CmdResult)
    : option Result :=
  if (cmd_returncode result =? 0) && opt_truthy (cmd_stdout result) then
    match real_violations (stdout_or_empty result) with
    | [] => None
    | _ :: _ =>
        let violations :=
          Py.take 50 (real_violations (stdout_or_empty result)) in
        let n := str_of_Z (Z.of_nat (List.length violations)) in
        Some (fail "forbidden_domain_found" (Some
          [ ("pattern", PStr pattern);
            ("match_count", PInt (Z.of_nat (List.length violations)));
            ("matches", PStrs violations);
            ("message", PStr
               ("Found " ++ n
                ++ " actual usage(s) of forbidden domain pattern '"
                ++ pattern
                ++ "'. All references must use 'insightpulseai.com'."));
            ("fix", PStr fix_command) ]))
    end
  else None.

(** [result.get("stderr", "Unknown error")]: the key is always there. *)
Definition stderr_value (result : CmdResult) : pyval :=
  match cmd_stderr result with
  | Some s => PStr s
  | None => PNone
  end.

(** The entry appended to [results] for one pattern. *)
Definition pattern_entry (pattern : string) (result : CmdResult) : pyval :=
  if negb ((cmd_returncode result =? 0) || (cmd_returncode result =? 1))
  then PDict [ ("pattern", PStr pattern);
               ("status", PStr "error");
               ("error", stderr_value result) ]
  else PDict [ ("pattern", PStr pattern);
               ("status", PStr "clean") ].

(** [r.get("status") == "error"] *)
Definition is_error_entry (r : pyval) : bool :=
  match r with
  | PDict d =>
      match dict_get d "status" with
      | Some (PStr s) => String.eqb s "error"
      | _ => false
      end
  | _ => false
  end.

(** What [run] returns once the loop is over. *)
Definition conclude (results : list pyval) : Result :=
  match filter is_error_entry results with
  | [] =>
      ok "domain_policy_ok" (Some
        [ ("policy", PStr "no insightpulseai.net references");
          ("canonical_domain", PStr "insightpulseai.com");
          ("mailgun_domain", PStr "mg.insightpulseai.com");
          ("patterns_checked", PStrs FORBIDDEN_PATTERNS) ])
  | errors =>
      fail "domain_check_error" (Some
        [ ("errors", PList errors);
          ("message", PStr "Could not complete domain policy scan") ])
  end.

(** The loop over the patterns, with the accumulated [results]. *)
Fixpoint scan {W} (sys : System W) (patterns : list string)
    (results : list pyval) : M W Result :=
  match patterns with
  | [] => ret (conclude results)
  | pattern :: rest =>
      result <- run_cmd sys (rg_cmd pattern) 60 true false ;;
      match report_violations pattern result with
      | Some r => ret r
      | None => scan sys rest (Py.append results (pattern_entry pattern result))
      end
  end.

(** [run()] *)
Definition run {W} (sys : System W) : M W Result :=
  scan sys FORBIDDEN_PATTERNS [].

End DomainPolicy.

(* ================================================================== *)
(** * base64 *)
(* ================================================================== *)

Module Base64.

Definition alphabet : string :=
  "ABCDEFGHIJKLMNOPQRSTUVWXYZabcdefghijklmnopqrstuvwxyz0123456789+/".

Definition digit (n : N) : ascii :=
  match String.get (N.to_nat n) alphabet with
  | Some c => c
  | None => "="%char
  end.

(** [base64.b64encode(s.encode()).decode()] *)
Fixpoint b64encode_bytes (l : list ascii) : string :=
  match l with
  | a :: b :: c :: r =>
      let n := (N_of_ascii a * 65536 + N_of_ascii b * 256 + N_of_ascii c)%N in
      String (digit (n / 262144))
        (String (digit ((n / 4096) mod 64))
           (String (digit ((n / 64) mod 64))
              (String (digit (n mod 64)) (b64encode_bytes r))))
  | [a; b] =>
      let n := (N_of_ascii a * 65536 + N_of_ascii b * 256)%N in
      String (digit (n / 262144))
        (String (digit ((n / 4096) mod 64))
           (String (digit ((n / 64) mod 64)) "="))
  | [a] =>
      let n := (N_of_ascii a * 65536)%N in
      String (digit (n / 262144)) (String (digit ((n / 4096) mod 64)) "==")
  | [] => ""
  end.

Definition b64encode (s : string) : string :=
  b64encode_bytes (list_ascii_of_string s).

End Base64.

(* ================================================================== *)
(** * checks/check_mailgun.py *)
(* ================================================================== *)

Module Mailgun.

(** Module constants, read from the environment when the module is
    loaded; the environment is taken not to change afterwards. *)
Definition ROOT_DOMAIN {W} (sys : System W) : string :=
  Py.strip (os_getenv sys "ROOT_DOMAIN" "insightpulseai.com").

Definition EXPECTED_MG_DOMAIN {W} (sys : System W) : string :=
  Py.strip (os_getenv sys "EXPECTED_MG_DOMAIN" ("mg." ++ ROOT_DOMAIN sys)).

Definition ZOHO_MX_RECORDS : list string :=
  [ "mx.zoho.com"; "mx2.zoho.com"; "mx3.zoho.com" ].

Definition REQUIRED_SPF_INCLUDES : list string :=
  [ "include:zohomail.com"; "include:mailgun.org" ].

(** An element of [results]: the tuple [(name, status, detail)]. *)
Definition entry (name st : string) (detail : pyval) : pyval :=
  PTuple [PStr name; PStr st; detail].

(** A step either returns from [run] ([inl]) or hands [results] on. *)
Definition step := (Result + list pyval)%type.

Definition proceed {W} (m : M W step) (k : list pyval -> M W Result)
    : M W Result :=
  x <- m ;;
  match x with
  | inl r => ret r
  | inr results => k results
  end.

(** Check 1: MAILGUN_DOMAIN must match the expected subdomain. *)
Definition check1 {W} (sys : System W) (domain : string)
    (results : list pyval) : step :=
  if Py.truthy domain then
    if negb (String.eqb domain (EXPECTED_MG_DOMAIN sys)) then
      inl (fail "mailgun_domain_mismatch" (Some
        [ ("expected", PStr (EXPECTED_MG_DOMAIN sys));
          ("actual", PStr domain);
          ("message", PStr ("MAILGUN_DOMAIN must be '" ++ EXPECTED_MG_DOMAIN sys
                            ++ "', not '" ++ domain ++ "'")) ]))
    else inr (Py.append results (entry "mailgun_domain" "ok"
                            (PStr (EXPECTED_MG_DOMAIN sys))))
  else inr (Py.append results (entry "mailgun_domain" "skip"
                          (PStr "MAILGUN_DOMAIN not set"))).

(** [[z for z in ZOHO_MX_RECORDS if z in mx_records]] *)
Definition zoho_found (mx_records : string) : list string :=
  filter (fun z => Py.contains z mx_records) ZOHO_MX_RECORDS.

(** Check 2: root MX must be Zoho.  [check2_verdict] is the part of the
    check that follows the query. *)
Definition check2_verdict {W} (sys : System W) (results : list pyval)
    (mx_records : string) : step :=
  if negb (Py.truthy mx_records) then
    inr (Py.append results (entry "root_mx" "warn"
                              (PStr "Could not query MX records")))
  else
    if (Z.of_nat (List.length (zoho_found mx_records)) <? 3) then
      inl (warn "root_mx_not_zoho" (Some
        [ ("root_domain", PStr (ROOT_DOMAIN sys));
          ("mx_records", PStrs (Py.split Py.nl mx_records));
          ("expected", PStrs ZOHO_MX_RECORDS);
          ("found", PStrs (zoho_found mx_records));
          ("message", PStr
             "Root domain MX should point to Zoho for email receiving") ]))
    else inr (Py.append results (entry "root_mx" "ok"
                                   (PStrs (zoho_found mx_records)))).

Definition check2 {W} (sys : System W) (results : list pyval) : M W step :=
  mx <- dig_mx sys (ROOT_DOMAIN sys) ;;
  let mx_records := Py.lower mx in
  ret (check2_verdict sys results mx_records).

(** Check 3: root SPF must include both Zoho and Mailgun. *)
Definition check3 {W} (sys : System W) (results : list pyval) : M W step :=
  root_spf <- dig_txt sys (ROOT_DOMAIN sys) ;;
  if negb (Py.contains "v=spf1" root_spf) then
    ret (inl (warn "spf_missing" (Some
      [ ("root_domain", PStr (ROOT_DOMAIN sys));
        ("spf", PStr (Py.or_else root_spf "<empty>"));
        ("message", PStr "Root domain has no SPF record") ])))
  else
    let missing_includes :=
      filter (fun inc => negb (Py.contains inc root_spf))
             REQUIRED_SPF_INCLUDES in
    match missing_includes with
    | _ :: _ =>
        ret (inl (warn "spf_missing_includes" (Some
          [ ("root_domain", PStr (ROOT_DOMAIN sys));
            ("spf", PStr root_spf);
            ("missing", PStrs missing_includes);
            ("message", PStr ("Root SPF missing: "
                              ++ Py.join ", " missing_includes)) ])))
    | [] =>
        ret (inr (Py.append results (entry "root_spf" "ok" (PStr root_spf))))
    end.

(** Check 4: a DMARC record must exist. *)
Definition check4 {W} (sys : System W) (results : list pyval) : M W step :=
  dmarc <- dig_txt sys ("_dmarc." ++ ROOT_DOMAIN sys) ;;
  if negb (Py.contains "v=DMARC1" dmarc) then
    ret (inl (warn "dmarc_missing" (Some
      [ ("root_domain", PStr (ROOT_DOMAIN sys));
        ("dmarc", PStr (Py.or_else dmarc "<empty>"));
        ("message", PStr "DMARC record missing or invalid") ])))
  else ret (inr (Py.append results (entry "dmarc" "ok" (PStr dmarc)))).

(** Check 5: the subdomain SPF must include Mailgun. *)
Definition check5 {W} (sys : System W) (results : list pyval) : M W step :=
  mg_spf <- dig_txt sys (EXPECTED_MG_DOMAIN sys) ;;
  if negb (Py.contains "v=spf1" mg_spf) then
    ret (inl (warn "mg_spf_missing" (Some
      [ ("mg_domain", PStr (EXPECTED_MG_DOMAIN sys));
        ("spf", PStr (Py.or_else mg_spf "<empty>"));
        ("message", PStr ("Mailgun subdomain " ++ EXPECTED_MG_DOMAIN sys
                          ++ " has no SPF record")) ])))
  else if negb (Py.contains "include:mailgun.org" mg_spf) then
    ret (inl (warn "mg_spf_invalid" (Some
      [ ("mg_domain", PStr (EXPECTED_MG_DOMAIN sys));
        ("spf", PStr mg_spf);
        ("message", PStr
           "Mailgun subdomain SPF should include mailgun.org") ])))
  else ret (inr (Py.append results (entry "mg_spf" "ok" (PStr mg_spf)))).

(** The request of check 6. *)
Definition api_url (domain : string) : string :=
  "https://api.mailgun.net/v3/" ++ domain.

Definition api_headers (api_key : string) : list (string * string) :=
  [ ("Authorization", "Basic " ++ Base64.b64encode ("api:" ++ api_key)) ].

Definition opt_int (o : option Z) : pyval :=
  match o with
  | Some z => PInt z
  | None => PNone
  end.

(** [response["status_code"] == n] *)
Definition status_is (response : HttpResult) (n : Z) : bool :=
  match http_status_code response with
  | Some c => c =? n
  | None => false
  end.

(** [response.get("error", "Unknown error")] *)
Definition error_or_unknown (response : HttpResult) : pyval :=
  match http_error response with
  | Some e => PStr e
  | None => PStr "Unknown error"
  end.

(** Check 6: Mailgun API connectivity, if credentials are provided. *)
Definition check6 {W} (sys : System W) (domain api_key : string)
    (results : list pyval) : M W Result :=
  if negb (Py.truthy api_key) || negb (Py.truthy domain) then
    ret (ok "mailgun_dns_checks_passed" (Some
      [ ("checks", PList (Py.append results (entry "mailgun_api" "skip"
                                        (PStr "Credentials not provided"))));
        ("root_domain", PStr (ROOT_DOMAIN sys));
        ("mg_domain", PStr (EXPECTED_MG_DOMAIN sys)) ]))
  else
    response <- http_get sys (api_url domain) (Some (api_headers api_key)) 10 ;;
    if negb (http_success response) then
      if status_is response 401 then
        ret (fail "mailgun_auth_failed" (Some
          [ ("domain", PStr domain);
            ("api_key", PStr (redact api_key 4));
            ("error", PStr "Authentication failed - check API key") ]))
      else if status_is response 404 then
        ret (fail "mailgun_domain_not_found" (Some
          [ ("domain", PStr domain);
            ("error", PStr ("Domain '" ++ domain
                            ++ "' not found in Mailgun account")) ]))
      else
        ret (warn "mailgun_api_error" (Some
          [ ("domain", PStr domain);
            ("status_code", opt_int (http_status_code response));
            ("error", error_or_unknown response) ]))
    else
      ret (ok "mailgun_full_check_passed" (Some
        [ ("checks", PList (Py.append results
                              (entry "mailgun_api" "ok" (PStr domain))));
          ("root_domain", PStr (ROOT_DOMAIN sys));
          ("mg_domain", PStr domain);
          ("api_key", PStr (redact api_key 4)) ])).

(** Sequencing of two steps: the second runs on the [results] of the
    first unless the first has returned. *)
Definition and_then {W} (m : M W step) (k : list pyval -> M W step)
    : M W step :=
  x <- m ;;
  match x with
  | inl r => ret (inl r)
  | inr results => k results
  end.

(** Checks 3 to 5, in order. *)
Definition checks_from_3 {W} (sys : System W) (results : list pyval)
    : M W step :=
  and_then (check3 sys results)
    (fun results => and_then (check4 sys results) (check5 sys)).

(** Checks 2 to 5, in order, each returning early on a warning. *)
Definition dns_checks {W} (sys : System W) (results : list pyval)
    : M W step :=
  and_then (check2 sys results) (checks_from_3 sys).

(** [run()] *)
Definition run {W} (sys : System W) : M W Result :=
  let results := [] in
  let domain := get_secret sys "MAILGUN_DOMAIN" "" in
  let api_key := get_secret sys "MAILGUN_API_KEY" "" in
  match check1 sys domain results with
  | inl r => ret r
  | inr results =>
      proceed (dns_checks sys results) (check6 sys domain api_key)
  end.

End Mailgun.

(* ================================================================== *)
(** * Regular expressions with groups, classes and counts *)
(* ================================================================== *)

Module Rx.

(** The patterns of the validators, as trees: the empty pattern, a
    character class, sequence, alternative and [*]. *)
Inductive rx : Type :=
| Eps
| Cls (f : ascii -> bool)
| Seq (a b : rx)
| Alt (a b : rx)
| Star (a : rx).

(** [a?], [a+], [a{n}], [a{0,n}], [a{lo,hi}] and [a{n,}]. *)
Definition Opt (a : rx) : rx := Alt a Eps.

Definition Plus (a : rx) : rx := Seq a (Star a).

Fixpoint Exactly (n : nat) (a : rx) : rx :=
  match n with
  | O => Eps
  | S n' => Seq a (Exactly n' a)
  end.

Fixpoint UpTo (n : nat) (a : rx) : rx :=
  match n with
  | O => Eps
  | S n' => Opt (Seq a (UpTo n' a))
  end.

Definition Between (lo hi : nat) (a : rx) : rx :=
  Seq (Exactly lo a) (UpTo (hi - lo) a).

Definition AtLeast (n : nat) (a : rx) : rx := Seq (Exactly n a) (Star a).

(** One given character, and a literal text; [ignorecase] is the flag
    [re.IGNORECASE]. *)
Definition Chr (c : ascii) : rx := Cls (Ascii.eqb c).

Definition same_char (ignorecase : bool) (c d : ascii) : bool :=
  if ignorecase then Ascii.eqb (Py.lower_char c) (Py.lower_char d)
  else Ascii.eqb c d.

Fixpoint Text (ignorecase : bool) (s : string) : rx :=
  match s with
  | EmptyString => Eps
  | String c r => Seq (Cls (same_char ignorecase c)) (Text ignorecase r)
  end.

(** The classes of the validators, on ASCII characters. *)
Definition is_digit (c : ascii) : bool :=
  let n := nat_of_ascii c in ((48 <=? n) && (n <=? 57))%nat.

Definition is_alpha (c : ascii) : bool := Py.is_lower c || Py.is_upper c.

Definition is_alnum (c : ascii) : bool := is_alpha c || is_digit c.

Definition one_of (chars : string) (c : ascii) : bool :=
  existsb (Ascii.eqb c) (list_ascii_of_string chars).

(** Iteration of a matcher [ma]: the rest [k], or one more round that
    consumes something; [fuel] bounds the rounds by the length of the
    text. *)
Fixpoint star (ma : (string -> bool) -> string -> bool)
    (k : string -> bool) (fuel : nat) (s : string) : bool :=
  if k s then true
  else
    match fuel with
    | O => false
    | S n =>
        ma (fun s' =>
              if (String.length s' <? String.length s)%nat
              then star ma k n s' else false) s
    end.

(** Does [r] match a prefix of [s] whose rest satisfies [k]?  All the ways
    to match are tried, as backtracking does. *)
Fixpoint matches (r : rx) (k : string -> bool) (s : string) : bool :=
  match r with
  | Eps => k s
  | Cls f =>
      match s with
      | EmptyString => false
      | String c s' => if f c then k s' else false
      end
  | Seq a b => matches a (matches b k) s
  | Alt a b => if matches a k s then true else matches b k s
  | Star a => star (matches a) k (String.length s) s
  end.

(** Where [$] holds: at the end of the text, or before a newline that
    ends it. *)
Definition at_end (rest : string) : bool :=
  match rest with
  | EmptyString => true
  | String c EmptyString => Ascii.eqb c Py.nl
  | String _ (String _ _) => false
  end.

(** [bool(re.compile("^" + r + "$").match(s))] *)
Definition fullmatch (r : rx) (s : string) : bool := matches r at_end s.

(** The texts a pattern stands for. *)
Inductive lang : rx -> string -> Prop :=
| LEps : lang Eps EmptyString
| LCls f c : f c = true -> lang (Cls f) (String c EmptyString)
| LSeq a b s1 s2 : lang a s1 -> lang b s2 -> lang (Seq a b) (s1 ++ s2)
| LAltL a b s : lang a s -> lang (Alt a b) s
| LAltR a b s : lang b s -> lang (Alt a b) s
| LStarNil a : lang (Star a) EmptyString
| LStarMore a s1 s2 :
    lang a s1 -> lang (Star a) s2 -> lang (Star a) (s1 ++ s2).

End Rx.

(* ================================================================== *)
(** * lib.py: validation helpers *)
(* ================================================================== *)

(** [[a-zA-Z0-9]], which is also [[A-Z0-9]] under [re.IGNORECASE]. *)
Definition alnum : Rx.rx := Rx.Cls Rx.is_alnum.

(** [[a-zA-Z]] *)
Definition alpha : Rx.rx := Rx.Cls Rx.is_alpha.

(** [[a-zA-Z0-9-]] *)
Definition label_char (c : ascii) : bool :=
  Rx.is_alnum c || Rx.one_of "-" c.

(** [[a-zA-Z0-9](?:[a-zA-Z0-9-]{0,61}[a-zA-Z0-9])?\.] *)
Definition label_dot : Rx.rx :=
  Rx.Seq alnum
    (Rx.Seq (Rx.Opt (Rx.Seq (Rx.Between 0 61 (Rx.Cls label_char)) alnum))
       (Rx.Chr ".")).

(** [\d], [\S] and [[/?]] *)
Definition digit : Rx.rx := Rx.Cls Rx.is_digit.

Definition nonspace : Rx.rx := Rx.Cls (fun c => negb (Py.isspace c)).

Definition slash_or_query : Rx.rx := Rx.Cls (Rx.one_of "/?").

(** [\d{1,3}\.\d{1,3}\.\d{1,3}\.\d{1,3}] *)
Definition ipv4 : Rx.rx :=
  Rx.Seq (Rx.Between 1 3 digit)
    (Rx.Seq (Rx.Chr ".")
       (Rx.Seq (Rx.Between 1 3 digit)
          (Rx.Seq (Rx.Chr ".")
             (Rx.Seq (Rx.Between 1 3 digit)
                (Rx.Seq (Rx.Chr ".") (Rx.Between 1 3 digit)))))).

(** The host of a URL: a domain whose last label has two to six letters,
    with an optional final dot, or [localhost], or four groups of
    digits. *)
Definition url_host : Rx.rx :=
  Rx.Alt
    (Rx.Seq (Rx.Plus label_dot)
       (Rx.Seq (Rx.Between 2 6 alpha) (Rx.Opt (Rx.Chr "."))))
    (Rx.Alt (Rx.Text true "localhost") ipv4).

(** [(?::\d+)?] *)
Definition url_port : Rx.rx := Rx.Opt (Rx.Seq (Rx.Chr ":") (Rx.Plus digit)).

(** [(?:/?|[/?]\S+)] *)
Definition url_path : Rx.rx :=
  Rx.Alt (Rx.Opt (Rx.Chr "/")) (Rx.Seq slash_or_query (Rx.Plus nonspace)).

(** What follows the scheme: host, port and path. *)
Definition url_rest : Rx.rx := Rx.Seq url_host (Rx.Seq url_port url_path).

(** The pattern of [validate_url], compiled with [re.IGNORECASE]:
    [https?://] and the rest. *)
Definition url_pattern : Rx.rx :=
  Rx.Seq (Rx.Text true "http")
    (Rx.Seq (Rx.Opt (Rx.Cls (Rx.same_char true "s")))
       (Rx.Seq (Rx.Text true "://") url_rest)).

(** [validate_url(url)], for a URL of ASCII characters: on other text
    [re.IGNORECASE], [\d] and [\S] follow Unicode. *)
Definition validate_url (url : string) : bool := Rx.fullmatch url_pattern url.

(** [[a-zA-Z0-9._%+-]] and [[a-zA-Z0-9.-]] *)
Definition email_local_char (c : ascii) : bool :=
  Rx.is_alnum c || Rx.one_of "._%+-" c.

Definition email_domain_char (c : ascii) : bool :=
  Rx.is_alnum c || Rx.one_of ".-" c.

(** The pattern of [validate_email]:
    [[a-zA-Z0-9._%+-]+@[a-zA-Z0-9.-]+\.[a-zA-Z]{2,}]. *)
Definition email_pattern : Rx.rx :=
  Rx.Seq (Rx.Plus (Rx.Cls email_local_char))
    (Rx.Seq (Rx.Chr "@")
       (Rx.Seq (Rx.Plus (Rx.Cls email_domain_char))
          (Rx.Seq (Rx.Chr ".") (Rx.AtLeast 2 alpha)))).

(** [validate_email(email)] *)
Definition validate_email (email : string) : bool :=
  Rx.fullmatch email_pattern email.

(** The pattern of [validate_domain]:
    [(?:[a-zA-Z0-9](?:[a-zA-Z0-9-]{0,61}[a-zA-Z0-9])?\.)+[a-zA-Z]{2,}]. *)
Definition domain_pattern : Rx.rx :=
  Rx.Seq (Rx.Plus label_dot) (Rx.AtLeast 2 alpha).

(** [validate_domain(domain)] *)
Definition validate_domain (domain : string) : bool :=
  Rx.fullmatch domain_pattern domain.

(* ================================================================== *)
(** * Scripted systems, for running the checks on concrete inputs *)
(* ================================================================== *)

Module Script.

Fixpoint assoc {A} (l : list (string * A)) (k : string) : option A :=
  match l with
  | [] => None
  | (k', v) :: r => if String.eqb k' k then Some v else assoc r k
  end.

Fixpoint cmd_eqb (a b : list string) : bool :=
  match a, b with
  | [], [] => true
  | x :: a', y :: b' => String.eqb x y && cmd_eqb a' b'
  | _, _ => false
  end.

Fixpoint answer (table : list (list string * (py_exception + Exited)))
    (cmd : list string) : py_exception + Exited :=
  match table with
  | [] => inl (FileNotFoundError "[Errno 2] No such file or directory")
  | (c, a) :: r => if cmd_eqb c cmd then a else answer r cmd
  end.

(** A system whose answers do not depend on the world: an environment, a
    table of command outcomes and one outcome for every HTTP request. *)
Definition system (env : list (string * string))
    (table : list (list string * (py_exception + Exited)))
    (http : py_exception + Response) : System unit :=
  mkSystem unit (assoc env)
    (fun cmd _ w => (answer table cmd, w))
    (fun _ _ w => (http, w)).

Definition start : State unit := mkState tt [].

Definition exited (rc : Z) (out : string) : py_exception + Exited :=
  inr (mkExited rc out "").

Definition dig (rtype name : string) : list string :=
  ["dig"; "+short"; rtype; name].

Definition rg : list string :=
  DomainPolicy.rg_cmd "insightpulseai\.net".

(** A TXT answer as dig prints it, between double quotes. *)
Definition quoted (s : string) : string :=
  String Py.dquote (s ++ String Py.dquote EmptyString).

Definition lines (l : list string) : string :=
  Py.join (String Py.nl "") l.

(** DNS answers under which checks 2 to 5 of the Mailgun check pass. *)
Definition good_dns : list (list string * (py_exception + Exited)) :=
  [ (dig "MX" "insightpulseai.com",
     exited 0 (lines ["10 mx.zoho.com."; "20 mx2.zoho.com.";
                      "50 mx3.zoho.com."; ""]));
    (dig "TXT" "insightpulseai.com",
     exited 0 (lines
       [quoted "v=spf1 include:zohomail.com include:mailgun.org ~all"; ""]));
    (dig "TXT" "_dmarc.insightpulseai.com",
     exited 0 (lines [quoted "v=DMARC1; p=none"; ""]));
    (dig "TXT" "mg.insightpulseai.com",
     exited 0 (lines [quoted "v=spf1 include:mailgun.org ~all"; ""])) ].


(** The same, with a failing MX query. *)
Definition no_mx_dns : list (list string * (py_exception + Exited)) :=
  (dig "MX" "insightpulseai.com", inl (TimeoutExpired "timed out"))
  :: good_dns.

Definition http_ok : py_exception + Response :=
  inr (mkResponse 200 "{}" []).

Definition http_401 : py_exception + Response :=
  inl (HTTPError 401 (Some "Forbidden") "UNAUTHORIZED").

(** The systems the properties are run on. *)



Definition credentials (key : string) : list (string * string) :=
  [ ("MAILGUN_DOMAIN", "mg.insightpulseai.com"); ("MAILGUN_API_KEY", key) ].

(** The API rejects the key. *)
Definition sys_401 : System unit :=
  system (credentials "key-0123456789") good_dns http_401.





(** The search finds a meta-reference and a real usage. *)
Definition rg_hits : string :=
  lines [ "README.md:3:no insightpulseai.net references allowed";
          "app/config.py:7:URL = https://insightpulseai.net/";
          EmptyString ].

Definition sys_rg_hits : System unit :=
  system [] [(rg, exited 0 rg_hits)] http_ok.

(** ripgrep is not installed. *)
Definition sys_no_rg : System unit := system [] [] http_ok.

End Script.

(* ================================================================== *)
(** * Vocabulary of the properties *)
(* ================================================================== *)



(** [d] is [c], possibly with its case changed. *)
Definition char_variant (c d : ascii) : bool :=
  Ascii.eqb d c || Ascii.eqb d (Py.upper_char c)
  || Ascii.eqb d (Py.lower_char c).

(** [b] is [a] with the case of some of its letters changed. *)
Fixpoint case_variant (a b : string) : bool :=
  match a, b with
  | EmptyString, EmptyString => true
  | String c a', String d b' => char_variant c d && case_variant a' b'
  | _, _ => false
  end.

(** The state after [subprocess.run(cmd, timeout=timeout)]: the world has
    moved on and the call is in the log. *)
Definition after_spawn {W} (sys : System W) (cmd : list string) (timeout : Z)
    (st : State W) : State W :=
  mkState (snd (spawn sys cmd timeout (world st)))
          (calls st ++ [Spawn cmd timeout]).

(** What the operating system answers to the command in state [st]. *)
Definition outcome {W} (sys : System W) (cmd : list string) (timeout : Z)
    (st : State W) : py_exception + Exited :=
  fst (spawn sys cmd timeout (world st)).



(** The HTTP requests of a log. *)
Definition http_calls (l : list call) : list call :=
  filter (fun c => match c with UrlOpen _ _ => true | Spawn _ _ => false end) l.











(** A step that always answers, makes no HTTP request, and returns from
    [run], if it does, with one of [codes]. *)
Definition returns_within {W} (codes : list string)
    (m : M W Mailgun.step) : Prop :=
  forall st, exists x st',
    m st = (inr x, st')
    /\ http_calls (calls st') = http_calls (calls st)
    /\ match x with
       | inl r => In (code r) codes
       | inr _ => True
       end.


(** The first and the last character of a string. *)
Definition first_char (s : string) : option ascii := String.get 0 s.

Definition last_char (s : string) : option ascii :=
  String.get (String.length s - 1)%nat s.

(** The dictionary [run_cmd] builds for a finished process. *)
Definition finished (capture : bool) (x : Exited) (error : option string)
    : CmdResult :=
  mkCmdResult (exit_code x =? 0) (exit_code x)
    (captured capture (out_text x)) (captured capture (err_text x)) error.

(** What a [dig] helper makes of the outcome of its command; [clean]
    is applied to the output before it is stripped. *)
Definition dig_answer (clean : string -> string)
    (o : py_exception + Exited) : string :=
  match o with
  | inr x => if exit_code x =? 0 then Py.strip (clean (out_text x))
             else EmptyString
  | inl _ => EmptyString
  end.

(** The request [http_get] opens for a URL and its headers. *)
Definition request_of (url : string)
    (headers : option (list (string * string))) : Request :=
  match headers with
  | Some hs =>
      fold_left (fun r kv => add_header r (fst kv) (snd kv)) hs
        (mkRequest url "GET" [])
  | None => mkRequest url "GET" []
  end.

(** The value a list of headers holds for a name. *)
Fixpoint header_get (h : list (string * string)) (k : string)
    : option string :=
  match h with
  | [] => None
  | (k', v) :: r => if String.eqb k' k then Some v else header_get r k
  end.

(** The regular expression of a literal text. *)
Fixpoint lits (text : string) : Re.regex :=
  match text with
  | EmptyString => []
  | String c r => Re.Once (Re.Lit c) :: lits r
  end.

(** No character of [s] is a newline. *)
Fixpoint one_line (s : string) : bool :=
  match s with
  | EmptyString => true
  | String c r => negb (Ascii.eqb c Py.nl) && one_line r
  end.

(** The words that, before the domain, make a line a meta-reference. *)
Definition meta_words : list string :=
  [ "forbidden"; "checking"; "block"; "ensure"; "fail"; "pattern";
    "policy" ].
























(** Every character of [s] satisfies [f]. *)
Fixpoint all_chars (f : ascii -> bool) (s : string) : bool :=
  match s with
  | EmptyString => true
  | String c r => f c && all_chars f r
  end.

(** There is such a character, and it satisfies [f]. *)
Definition char_is (f : ascii -> bool) (o : option ascii) : bool :=
  match o with
  | Some c => f c
  | None => false
  end.

(** A label of a domain name: one to 63 letters, digits and hyphens, the
    first and the last of them no hyphen. *)
Definition label_ok (l : string) : bool :=
  (String.length l <=? 63)%nat && all_chars label_char l
  && char_is Rx.is_alnum (first_char l) && char_is Rx.is_alnum (last_char l).

(** A last label: two letters or more. *)
Definition tld_ok (t : string) : bool :=
  (2 <=? String.length t)%nat && all_chars Rx.is_alpha t.

(** The domain name made of [labels] and the last label [tld]. *)
Definition domain_of (labels : list string) (tld : string) : string :=
  Py.join "." (labels ++ [tld])%list.

(** The text, possibly followed by one newline. *)
Definition with_newline (body s : string) : Prop :=
  s = body \/ s = body ++ String Py.nl "".

(** How many times [c] occurs in [s]: [s.count(c)]. *)
Fixpoint count_char (c : ascii) (s : string) : nat :=
  match s with
  | EmptyString => O
  | String d r => ((if Ascii.eqb d c then 1 else 0) + count_char c r)%nat
  end.

(** The address made of a local part, a mail domain and its last label. *)
Definition address_of (local dom tld : string) : string :=
  local ++ "@" ++ dom ++ "." ++ tld.

(** Every class of the pattern [r] lies within [p]. *)
Fixpoint class_all (p : ascii -> bool) (r : Rx.rx) : Prop :=
  match r with
  | Rx.Eps => True
  | Rx.Cls f => forall c, f c = true -> p c = true
  | Rx.Seq a b => class_all p a /\ class_all p b
  | Rx.Alt a b => class_all p a /\ class_all p b
  | Rx.Star a => class_all p a
  end.

(** How many characters at the end of [s] satisfy [f]. *)
Fixpoint trailing (f : ascii -> bool) (s : string) : nat :=
  match s with
  | EmptyString => O
  | String c r => if all_chars f s then String.length s else trailing f r
  end.

(** No white space. *)
Definition nospace (s : string) : bool :=
  all_chars (fun c => negb (Py.isspace c)) s.

(* ================================================================== *)
(** * Strings and lists of characters *)
(* ================================================================== *)




Lemma string_of_list_app (a b : list ascii) :
  string_of_list_ascii (a ++ b)
  = string_of_list_ascii a ++ string_of_list_ascii b.
Proof.
  induction a as [|c a IH]; simpl; [reflexivity | now rewrite IH].
Qed.







Lemma rstrip_keep (c : ascii) (s : string) :
  Py.isspace c = false -> Py.rstrip (String c s) = String c (Py.rstrip s).
Proof.
  intros H. simpl. destruct (Py.rstrip s); [now rewrite H | reflexivity].
Qed.

Lemma rstrip_cons (c : ascii) (s : string) :
  Py.rstrip (String c s)
  = match Py.rstrip s with
    | EmptyString =>
        if Py.isspace c then EmptyString else String c EmptyString
    | String d r => String c (String d r)
    end.
Proof. reflexivity. Qed.

Lemma rstrip_idem (s : string) : Py.rstrip (Py.rstrip s) = Py.rstrip s.
Proof.
  induction s as [|c s IH]; [reflexivity|].
  rewrite rstrip_cons. destruct (Py.rstrip s) as [|d r] eqn:E.
  - destruct (Py.isspace c) eqn:Hc; [reflexivity|].
    rewrite rstrip_cons. simpl Py.rstrip. now rewrite Hc.
  - rewrite rstrip_cons, IH. reflexivity.
Qed.


(* ================================================================== *)
(** * redact *)
(* ================================================================== *)



(** With no visible character asked for, the slice [value[-0:]] is the
    whole value: the secret follows its own mask. *)
Example redact_zero_visible : redact "secret" 0 = "******secret".
Proof. reflexivity. Qed.




(* ================================================================== *)
(** * is_policy_meta_reference *)
(* ================================================================== *)

(** C3.  The two lines of the specification: a sentence about the policy is
    a meta-reference, a URL of the forbidden domain is not. *)
Theorem meta_reference_examples :
  DomainPolicy.is_policy_meta_reference
    "no insightpulseai.net references allowed" = true
  /\ DomainPolicy.is_policy_meta_reference
       "see https://insightpulseai.net/" = false.
Proof. split; vm_compute; reflexivity. Qed.

Ltac each_char c :=
  destruct c as [[] [] [] [] [] [] [] []].

Lemma lower_upper_char (c : ascii) :
  Py.lower_char (Py.upper_char c) = Py.lower_char c.
Proof. each_char c; reflexivity. Qed.

Lemma lower_lower_char (c : ascii) :
  Py.lower_char (Py.lower_char c) = Py.lower_char c.
Proof. each_char c; reflexivity. Qed.

Lemma char_variant_lower (c d : ascii) :
  char_variant c d = true -> Py.lower_char d = Py.lower_char c.
Proof.
  unfold char_variant. intros H.
  apply orb_true_iff in H. destruct H as [H | H].
  - apply orb_true_iff in H. destruct H as [H | H];
      apply Ascii.eqb_eq in H; subst d.
    + reflexivity.
    + apply lower_upper_char.
  - apply Ascii.eqb_eq in H. subst d. apply lower_lower_char.
Qed.

Lemma case_variant_lower (a b : string) :
  case_variant a b = true -> Py.lower b = Py.lower a.
Proof.
  revert b. induction a as [|c a IH]; intros [|d b] H; simpl in H;
    try discriminate.
  - reflexivity.
  - apply andb_true_iff in H. destruct H as [Hc Hs].
    unfold Py.lower in *. simpl.
    now rewrite (char_variant_lower _ _ Hc), (IH _ Hs).
Qed.

Lemma no_special_on_ascii (c : ascii) (s : string) :
  Py.is_ascii_char c = true ->
  Py.find_special Py.special_upper (String c s) = None.
Proof.
  each_char c; intros H; vm_compute in H; try discriminate H; reflexivity.
Qed.

(** On ASCII text [upper] maps the characters one by one. *)
Lemma upper_ascii (s : string) :
  Py.isascii s = true -> Py.upper s = Py.map_chars Py.upper_char s.
Proof.
  unfold Py.upper. induction s as [|c s IH]; intros H; [reflexivity|].
  simpl in H. apply andb_true_iff in H. destruct H as (Hc & Hs).
  cbn [Py.upper_from Py.map_chars].
  now rewrite (no_special_on_ascii c s Hc), (IH Hs).
Qed.

Lemma lower_upper (s : string) :
  Py.isascii s = true -> Py.lower (Py.upper s) = Py.lower s.
Proof.
  intros H. rewrite (upper_ascii s H). clear H. unfold Py.lower.
  induction s as [|c s IH]; simpl; [reflexivity|].
  now rewrite lower_upper_char, IH.
Qed.

(** The answer depends on the line through its lower-case form only. *)
Lemma meta_reference_of_lower (a b : string) :
  Py.lower a = Py.lower b ->
  DomainPolicy.is_policy_meta_reference a
  = DomainPolicy.is_policy_meta_reference b.
Proof.
  intros H. unfold DomainPolicy.is_policy_meta_reference. now rewrite H.
Qed.

(** C9, as amended.  The filter does not see the case of ASCII letters: a
    line that differs from another only in the case of such letters gets
    the same answer, and so does the upper-case form of an ASCII line. *)
Theorem meta_reference_case_insensitive :
  forall line : string,
    (forall line' : string,
        case_variant line line' = true ->
        DomainPolicy.is_policy_meta_reference line'
        = DomainPolicy.is_policy_meta_reference line)
    /\ (Py.isascii line = true ->
        DomainPolicy.is_policy_meta_reference (Py.upper line)
        = DomainPolicy.is_policy_meta_reference line).
Proof.
  intros line. split.
  - intros line' H. apply meta_reference_of_lower.
    now apply case_variant_lower.
  - intros H. now apply meta_reference_of_lower, lower_upper.
Qed.

Lemma meta_reference_case_insensitive_witness :
  DomainPolicy.is_policy_meta_reference "No InsightPulseAI.NET References"
  = DomainPolicy.is_policy_meta_reference "no insightpulseai.net references"
  /\ DomainPolicy.is_policy_meta_reference
       (Py.upper "no insightpulseai.net references")
     = DomainPolicy.is_policy_meta_reference
         "no insightpulseai.net references".
Proof.
  destruct (meta_reference_case_insensitive
              "no insightpulseai.net references") as (Hvar & Hup).
  split; [apply Hvar | apply Hup]; vm_compute; reflexivity.
Defined.

(** C9 as stated fails on a line that ends with U+1E97, a small t with
    diaeresis: its upper-case form is a capital T followed by a combining
    diaeresis, so the upper-case line ends, once lowered, with the [net]
    that the line itself does not have. *)
Lemma meta_reference_upper_counterexample :
  Py.upper ("no insightpulseai.ne" ++ Py.utf8 [225; 186; 151])
  = "NO INSIGHTPULSEAI.NET" ++ Py.utf8 [204; 136]
  /\ DomainPolicy.is_policy_meta_reference
       ("no insightpulseai.ne" ++ Py.utf8 [225; 186; 151]) = false
  /\ DomainPolicy.is_policy_meta_reference
       (Py.upper ("no insightpulseai.ne" ++ Py.utf8 [225; 186; 151])) = true.
Proof. repeat split; vm_compute; reflexivity. Qed.

(* ================================================================== *)
(** * run_cmd *)
(* ================================================================== *)

Section RunCmd.

Context {W : Type} (sys : System W).

Lemma run_cmd_returns cmd timeout capture check st :
  exists r,
    run_cmd sys cmd timeout capture check st
    = (inr r, after_spawn sys cmd timeout st).
Proof.
  unfold run_cmd, try_except, bind, subprocess_run, after_spawn, ret.
  simpl. destruct (spawn sys cmd timeout (world st)) as [[e | x] w]; simpl.
  - destruct e; eexists; reflexivity.
  - destruct (check && negb (exit_code x =? 0)); eexists; reflexivity.
Qed.

(** The usual call, with captured output and no [check]. *)
Lemma run_cmd_captured cmd timeout st :
  exists r,
    run_cmd sys cmd timeout true false st
    = (inr r, after_spawn sys cmd timeout st)
    /\ match outcome sys cmd timeout st with
       | inr x =>
           r = mkCmdResult (exit_code x =? 0) (exit_code x)
                 (Some (out_text x)) (Some (err_text x)) None
       | inl _ => cmd_success r = false
       end.
Proof.
  unfold run_cmd, try_except, bind, subprocess_run, after_spawn, ret, outcome.
  simpl. destruct (spawn sys cmd timeout (world st)) as [[e | x] w]; simpl.
  - destruct e; eexists; (split; reflexivity).
  - eexists; split; reflexivity.
Qed.

(** C7.  Whatever the command does, [run_cmd] returns a dictionary and
    raises nothing.  [success] is true exactly when the command ran and
    exited with 0; every exception leaves [success] false and an [error]
    kind, which is [timeout] exactly for a timeout and [command_not_found]
    exactly for a missing executable. *)
Theorem run_cmd_never_raises :
  forall (cmd : list string) (timeout : Z) (capture check : bool)
         (st : State W),
  exists r : CmdResult,
    run_cmd sys cmd timeout capture check st
    = (inr r, after_spawn sys cmd timeout st)
    /\ (cmd_success r = true <->
        exists x, outcome sys cmd timeout st = inr x /\ exit_code x = 0)
    /\ (forall e, outcome sys cmd timeout st = inl e ->
        cmd_success r = false /\ cmd_error r <> None)
    /\ (forall x, outcome sys cmd timeout st = inr x -> exit_code x <> 0 ->
        cmd_success r = false /\ cmd_returncode r = exit_code x)
    /\ (cmd_error r = Some "timeout" <->
        exists msg, outcome sys cmd timeout st = inl (TimeoutExpired msg))
    /\ (cmd_error r = Some "command_not_found" <->
        exists msg, outcome sys cmd timeout st = inl (FileNotFoundError msg)).
Proof.
  intros cmd timeout capture check st.
  unfold run_cmd, try_except, bind, subprocess_run, after_spawn, ret, outcome.
  simpl. destruct (spawn sys cmd timeout (world st)) as [[e | x] w]; simpl.
  - destruct e; eexists; (split; [reflexivity|]); simpl;
      repeat split; try discriminate; try congruence;
      try (intros (? & ? & ?); discriminate);
      try (intros (? & ?); discriminate);
      try (intros _; eexists; reflexivity).
  - destruct (exit_code x =? 0) eqn:E0.
    + apply Z.eqb_eq in E0. rewrite andb_false_r.
      eexists; (split; [reflexivity|]); simpl. rewrite E0. simpl.
      repeat split; try discriminate; try congruence;
        try (intros (? & ?); discriminate).
      intros _. exists x. now split.
    + apply Z.eqb_neq in E0.
      destruct check; simpl; eexists; (split; [reflexivity|]); simpl;
        try (apply Z.eqb_neq in E0 as E1; rewrite E1);
        repeat split; try discriminate; try congruence;
        try (intros (? & ?); discriminate);
        try (intros (y & Hy & Hz); inversion Hy; subst; contradiction).
Qed.

End RunCmd.

Lemma run_cmd_never_raises_witness :
  exists r : CmdResult,
    run_cmd (Script.system [] Script.no_mx_dns Script.http_ok)
      (Script.dig "MX" "insightpulseai.com") 30 true false Script.start
    = (inr r, after_spawn (Script.system [] Script.no_mx_dns Script.http_ok)
                (Script.dig "MX" "insightpulseai.com") 30 Script.start)
    /\ cmd_success r = false
    /\ cmd_error r = Some "timeout".
Proof.
  destruct (run_cmd_never_raises
              (Script.system [] Script.no_mx_dns Script.http_ok)
              (Script.dig "MX" "insightpulseai.com") 30 true false
              Script.start) as (r & Hrun & _ & Hexc & _ & Htime & _).
  exists r. split; [exact Hrun|]. split.
  - apply (Hexc (TimeoutExpired "timed out")). reflexivity.
  - apply Htime. exists "timed out". reflexivity.
Defined.

(* ================================================================== *)
(** * The domain policy check *)
(* ================================================================== *)

Section DomainPolicyCheck.

Context {W : Type} (sys : System W).

Import DomainPolicy.

(** One pattern, one search: [run] is decided by the result of that search. *)
Lemma run_one_search st r st1 :
  run_cmd sys (rg_cmd "insightpulseai\.net") 60 true false st = (inr r, st1) ->
  run sys st
  = (inr match report_violations "insightpulseai\.net" r with
         | Some res => res
         | None => conclude [pattern_entry "insightpulseai\.net" r]
         end, st1).
Proof.
  intros H. unfold run, FORBIDDEN_PATTERNS, scan, bind. rewrite H.
  destruct (report_violations "insightpulseai\.net" r); reflexivity.
Qed.




(** C8.  A search that ends with an exit code other than 0 and 1 (a crash of
    the tool, a timeout, a missing executable) makes [run] return the
    [fail] of code [domain_check_error], which lists the error; that code
    is not the code of a policy violation. *)
Theorem domain_policy_scan_error :
  forall (st : State W) (r : CmdResult) (st1 : State W),
    run_cmd sys (rg_cmd "insightpulseai\.net") 60 true false st
    = (inr r, st1) ->
    cmd_returncode r <> 0 -> cmd_returncode r <> 1 ->
    exists res,
      run sys st = (inr res, st1)
      /\ status res = StFail
      /\ code res = "domain_check_error"
      /\ code res <> "forbidden_domain_found"
      /\ dict_get (data res) "errors"
         = Some (PList [PDict [ ("pattern", PStr "insightpulseai\.net");
                                ("status", PStr "error");
                                ("error", stderr_value r) ]]).
Proof.
  intros st r st1 Hrun H0 H1. rewrite (run_one_search _ _ _ Hrun).
  unfold report_violations, pattern_entry.
  apply Z.eqb_neq in H0, H1. rewrite H0, H1. simpl.
  eexists. split; [reflexivity|]. repeat split. simpl. discriminate.
Qed.

End DomainPolicyCheck.

(* ================================================================== *)
(** * The Mailgun check: its steps *)
(* ================================================================== *)

Section MailgunSteps.

Context {W : Type} (sys : System W).

Import Mailgun.

Lemma bind_returns {A B} (m : M W A) (k : A -> M W B) st a st' :
  m st = (inr a, st') -> bind m k st = k a st'.
Proof. intros H. unfold bind. now rewrite H. Qed.

Lemma dig_mx_returns name st :
  exists s,
    dig_mx sys name st
    = (inr s, after_spawn sys ["dig"; "+short"; "MX"; name] 30 st).
Proof.
  destruct (run_cmd_returns sys ["dig"; "+short"; "MX"; name] 30 true false st)
    as (r & Hr).
  unfold dig_mx. rewrite (bind_returns _ _ _ _ _ Hr).
  destruct (cmd_success r); eexists; reflexivity.
Qed.

Lemma dig_txt_returns name st :
  exists s,
    dig_txt sys name st
    = (inr s, after_spawn sys ["dig"; "+short"; "TXT"; name] 30 st).
Proof.
  destruct (run_cmd_returns sys ["dig"; "+short"; "TXT"; name] 30 true false st)
    as (r & Hr).
  unfold dig_txt. rewrite (bind_returns _ _ _ _ _ Hr).
  destruct (cmd_success r); eexists; reflexivity.
Qed.

Lemma http_calls_after_spawn cmd timeout (st : State W) :
  http_calls (calls (after_spawn sys cmd timeout st)) = http_calls (calls st).
Proof.
  unfold after_spawn, http_calls. simpl.
  rewrite filter_app. simpl. apply app_nil_r.
Qed.

Ltac step_done :=
  eexists; eexists;
  split; [reflexivity | split; [apply http_calls_after_spawn | simpl; tauto]].

Lemma check2_within results :
  returns_within ["root_mx_not_zoho"] (check2 sys results).
Proof.
  intros st. destruct (dig_mx_returns (ROOT_DOMAIN sys) st) as (mx & Hmx).
  unfold check2. rewrite (bind_returns _ _ _ _ _ Hmx).
  cbv zeta. unfold check2_verdict.
  destruct (negb (Py.truthy (Py.lower mx))); [step_done|].
  destruct (Z.of_nat (List.length (zoho_found (Py.lower mx))) <? 3); step_done.
Qed.

Lemma check3_within results :
  returns_within ["spf_missing"; "spf_missing_includes"] (check3 sys results).
Proof.
  intros st. destruct (dig_txt_returns (ROOT_DOMAIN sys) st) as (spf & Hspf).
  unfold check3. rewrite (bind_returns _ _ _ _ _ Hspf).
  destruct (negb (Py.contains "v=spf1" spf)); [step_done|].
  destruct (filter (fun inc => negb (Py.contains inc spf))
                   REQUIRED_SPF_INCLUDES); step_done.
Qed.

Lemma check4_within results :
  returns_within ["dmarc_missing"] (check4 sys results).
Proof.
  intros st.
  destruct (dig_txt_returns ("_dmarc." ++ ROOT_DOMAIN sys) st) as (d & Hd).
  unfold check4. rewrite (bind_returns _ _ _ _ _ Hd).
  destruct (negb (Py.contains "v=DMARC1" d)); step_done.
Qed.

Lemma check5_within results :
  returns_within ["mg_spf_missing"; "mg_spf_invalid"] (check5 sys results).
Proof.
  intros st.
  destruct (dig_txt_returns (EXPECTED_MG_DOMAIN sys) st) as (spf & Hspf).
  unfold check5. rewrite (bind_returns _ _ _ _ _ Hspf).
  destruct (negb (Py.contains "v=spf1" spf)); [step_done|].
  destruct (negb (Py.contains "include:mailgun.org" spf)); step_done.
Qed.

Lemma and_then_within codes1 codes2 (m : M W step) k :
  returns_within codes1 m ->
  (forall results, returns_within codes2 (k results)) ->
  returns_within (codes1 ++ codes2) (and_then m k).
Proof.
  intros Hm Hk st. destruct (Hm st) as (x & st1 & Hx & Hc1 & Hcode).
  unfold and_then. rewrite (bind_returns _ _ _ _ _ Hx).
  destruct x as [r | results].
  - exists (inl r), st1. split; [reflexivity|]. split; [assumption|].
    apply in_or_app. now left.
  - destruct (Hk results st1) as (y & st2 & Hy & Hc2 & Hcode2).
    exists y, st2. split; [assumption|]. split; [congruence|].
    destruct y; [apply in_or_app; now right | exact I].
Qed.

Lemma checks_from_3_within results :
  returns_within
    ["spf_missing"; "spf_missing_includes"; "dmarc_missing";
     "mg_spf_missing"; "mg_spf_invalid"]
    (checks_from_3 sys results).
Proof.
  unfold checks_from_3.
  apply (and_then_within ["spf_missing"; "spf_missing_includes"]
           ["dmarc_missing"; "mg_spf_missing"; "mg_spf_invalid"]).
  - apply check3_within.
  - intros r3. apply (and_then_within ["dmarc_missing"]
                        ["mg_spf_missing"; "mg_spf_invalid"]).
    + apply check4_within.
    + apply check5_within.
Qed.

Lemma dns_checks_within results :
  returns_within
    ["root_mx_not_zoho"; "spf_missing"; "spf_missing_includes";
     "dmarc_missing"; "mg_spf_missing"; "mg_spf_invalid"]
    (dns_checks sys results).
Proof.
  unfold dns_checks.
  apply (and_then_within ["root_mx_not_zoho"]
           ["spf_missing"; "spf_missing_includes"; "dmarc_missing";
            "mg_spf_missing"; "mg_spf_invalid"]).
  - apply check2_within.
  - apply checks_from_3_within.
Qed.


End MailgunSteps.

(* ================================================================== *)
(** * The Mailgun check: redaction of the key *)
(* ================================================================== *)




(* ================================================================== *)
(** * The Mailgun check: run *)
(* ================================================================== *)

Section MailgunRun.

Context {W : Type} (sys : System W).

Import Mailgun.





















End MailgunRun.

(* ================================================================== *)
(** * The properties on concrete systems *)
(* ================================================================== *)

Import Script.


Lemma domain_policy_scan_error_witness :
  exists res,
    fst (DomainPolicy.run sys_no_rg start) = inr res
    /\ status res = StFail
    /\ code res = "domain_check_error".
Proof.
  destruct (domain_policy_scan_error sys_no_rg start
              (mkCmdResult false (-1) None
                 (Some "[Errno 2] No such file or directory")
                 (Some "command_not_found"))
              (after_spawn sys_no_rg rg 60 start) eq_refl)
    as (res & Hrun & Hst & Hcode & _); [discriminate | discriminate |].
  exists res. rewrite Hrun. now repeat split.
Defined.








(* ================================================================== *)
(** * More on redact *)
(* ================================================================== *)







(* ================================================================== *)
(** * Secrets and module constants *)
(* ================================================================== *)

Lemma lstrip_head (s : string) (c : ascii) :
  first_char (Py.lstrip s) = Some c -> Py.isspace c = false.
Proof.
  induction s as [|d s IH]; simpl; [discriminate|].
  destruct (Py.isspace d) eqn:Hd; [exact IH|].
  intros H. inversion H. now subst.
Qed.

Lemma rstrip_first (s : string) (c : ascii) :
  first_char s = Some c -> Py.isspace c = false ->
  first_char (Py.rstrip s) = Some c.
Proof.
  destruct s as [|d s]; [discriminate|]. intros H Hc.
  inversion H. subst d. now rewrite rstrip_keep.
Qed.

Lemma rstrip_last (s : string) (c : ascii) :
  last_char (Py.rstrip s) = Some c -> Py.isspace c = false.
Proof.
  induction s as [|a s IH]; [discriminate|].
  rewrite rstrip_cons. destruct (Py.rstrip s) as [|d r] eqn:E.
  - destruct (Py.isspace a) eqn:Ha; [discriminate|].
    intros H. inversion H. now subst.
  - intros H. apply IH. unfold last_char in *. simpl in *.
    now rewrite Nat.sub_0_r in *.
Qed.

Lemma rstrip_empty_first (s : string) (c : ascii) :
  first_char s = Some c -> Py.isspace c = false ->
  Py.rstrip s <> EmptyString.
Proof.
  destruct s as [|d s]; [discriminate|]. intros H Hc.
  inversion H. subst d. rewrite rstrip_keep by assumption. discriminate.
Qed.

(** [strip] leaves no white space at either end, and stripping twice is
    stripping once. *)
Lemma strip_ends (s : string) :
  Py.strip (Py.strip s) = Py.strip s
  /\ (forall c, first_char (Py.strip s) = Some c -> Py.isspace c = false)
  /\ (forall c, last_char (Py.strip s) = Some c -> Py.isspace c = false).
Proof.
  unfold Py.strip. destruct (Py.lstrip s) as [|d r] eqn:E.
  - repeat split; intros c H; discriminate H.
  - assert (Hd : Py.isspace d = false)
      by (apply (lstrip_head s); rewrite E; reflexivity).
    rewrite rstrip_keep by assumption. repeat split.
    + cbn [Py.lstrip]. rewrite Hd. rewrite rstrip_keep by assumption.
      now rewrite rstrip_idem.
    + intros c H. inversion H. now subst.
    + intros c H. rewrite <- rstrip_keep in H by assumption.
      now apply rstrip_last in H.
Qed.

Section Secrets.

Context {W : Type} (sys : System W).



End Secrets.



(* ================================================================== *)
(** * More on run_cmd *)
(* ================================================================== *)

Section RunCmdMore.

Context {W : Type} (sys : System W).

(** For a process that finishes, [run_cmd] reports the exit code, with
    [success] for 0 and the output when it is captured; [check] changes
    one thing only: a non-zero exit code then comes with the error kind
    [nonzero_exit], and without [check] there is no error key. *)
Theorem run_cmd_on_exit :
  forall (cmd : list string) (timeout : Z) (capture check : bool)
         (st : State W) (x : Exited),
    outcome sys cmd timeout st = inr x ->
    run_cmd sys cmd timeout capture check st
    = (inr (finished capture x
              (if check && negb (exit_code x =? 0)
               then Some "nonzero_exit" else None)),
       after_spawn sys cmd timeout st).
Proof.
  intros cmd timeout capture check st x Hx.
  unfold run_cmd, try_except, bind, subprocess_run, after_spawn, ret,
    outcome, finished in *.
  cbn [world calls] in *.
  destruct (spawn sys cmd timeout (world st)) as [o w]. cbn [fst snd] in *.
  subst o. destruct (check && negb (exit_code x =? 0)) eqn:E.
  - apply andb_true_iff in E. destruct E as (_ & E).
    apply negb_true_iff in E. rewrite E. cbn.
    destruct capture; reflexivity.
  - cbn. destruct capture; reflexivity.
Qed.


End RunCmdMore.

Lemma run_cmd_on_exit_witness :
  fst (run_cmd Script.sys_rg_hits Script.rg 60 true true Script.start)
  = inr (mkCmdResult true 0 (Some Script.rg_hits) (Some EmptyString) None).
Proof.
  rewrite (run_cmd_on_exit Script.sys_rg_hits Script.rg 60 true true
             Script.start (mkExited 0 Script.rg_hits EmptyString) eq_refl).
  reflexivity.
Defined.


(* ================================================================== *)
(** * The DNS helpers *)
(* ================================================================== *)

Lemma lstrip_chars (s : string) (c : ascii) :
  In c (list_ascii_of_string (Py.lstrip s)) -> In c (list_ascii_of_string s).
Proof.
  induction s as [|d s IH]; simpl; [tauto|].
  destruct (Py.isspace d); simpl; tauto.
Qed.

Lemma rstrip_chars (s : string) (c : ascii) :
  In c (list_ascii_of_string (Py.rstrip s)) -> In c (list_ascii_of_string s).
Proof.
  induction s as [|d s IH]; [simpl; tauto|].
  rewrite rstrip_cons. destruct (Py.rstrip s) as [|e r].
  - destruct (Py.isspace d); simpl; tauto.
  - simpl in *. tauto.
Qed.

Lemma strip_chars (s : string) (c : ascii) :
  In c (list_ascii_of_string (Py.strip s)) -> In c (list_ascii_of_string s).
Proof. intros H. now apply lstrip_chars, rstrip_chars. Qed.

Lemma remove_char_gone (c : ascii) (s : string) :
  ~ In c (list_ascii_of_string (Py.remove_char c s)).
Proof.
  induction s as [|d s IH]; simpl; [tauto|].
  destruct (Ascii.eqb_spec d c); simpl; [exact IH|].
  intros [H | H]; [congruence | now apply IH].
Qed.

Section DigHelpers.

Context {W : Type} (sys : System W).

Lemma dig_generic (cmd : list string) (clean : string -> string) st :
  bind (run_cmd sys cmd 30 true false)
       (fun r => if negb (cmd_success r) then ret EmptyString
                 else ret (Py.strip (clean (stdout_or_empty r)))) st
  = (inr (dig_answer clean (outcome sys cmd 30 st)),
     after_spawn sys cmd 30 st).
Proof.
  destruct (run_cmd_captured sys cmd 30 st) as (r & Hr & Hout).
  rewrite (bind_returns _ _ _ _ _ Hr). unfold dig_answer.
  destruct (outcome sys cmd 30 st) as [e | x].
  - now rewrite Hout.
  - subst r. cbn. destruct (exit_code x =? 0); reflexivity.
Qed.

(** The four helpers answer alike: the stripped output of [dig] when it
    exits with 0, the empty string when it exits with another code or
    does not run at all.  None of them raises, and each makes one call.
    [dig_txt] also drops every double quote before it strips. *)
Theorem dig_helpers_answer :
  forall (name : string) (st : State W),
    dig_mx sys name st
    = (inr (dig_answer (fun s => s)
              (outcome sys ["dig"; "+short"; "MX"; name] 30 st)),
       after_spawn sys ["dig"; "+short"; "MX"; name] 30 st)
    /\ dig_cname sys name st
       = (inr (dig_answer (fun s => s)
                 (outcome sys ["dig"; "+short"; "CNAME"; name] 30 st)),
          after_spawn sys ["dig"; "+short"; "CNAME"; name] 30 st)
    /\ dig_a sys name st
       = (inr (dig_answer (fun s => s)
                 (outcome sys ["dig"; "+short"; "A"; name] 30 st)),
          after_spawn sys ["dig"; "+short"; "A"; name] 30 st)
    /\ dig_txt sys name st
       = (inr (dig_answer (Py.remove_char Py.dquote)
                 (outcome sys ["dig"; "+short"; "TXT"; name] 30 st)),
          after_spawn sys ["dig"; "+short"; "TXT"; name] 30 st).
Proof.
  intros name st. repeat split.
  - apply (dig_generic ["dig"; "+short"; "MX"; name] (fun s => s)).
  - apply (dig_generic ["dig"; "+short"; "CNAME"; name] (fun s => s)).
  - apply (dig_generic ["dig"; "+short"; "A"; name] (fun s => s)).
  - apply (dig_generic ["dig"; "+short"; "TXT"; name]
             (Py.remove_char Py.dquote)).
Qed.

(** What [dig_txt] returns holds no double quote and neither starts nor
    ends with white space. *)
Theorem dig_txt_is_clean :
  forall (name : string) (st : State W) (txt : string) (st' : State W),
    dig_txt sys name st = (inr txt, st') ->
    ~ In Py.dquote (list_ascii_of_string txt)
    /\ Py.strip txt = txt
    /\ (forall c, first_char txt = Some c -> Py.isspace c = false)
    /\ (forall c, last_char txt = Some c -> Py.isspace c = false).
Proof.
  intros name st txt st' H. unfold dig_txt in H.
  rewrite (dig_generic ["dig"; "+short"; "TXT"; name]
             (Py.remove_char Py.dquote)) in H.
  inversion H as [[Htxt Hst]]. clear H Hst. unfold dig_answer.
  destruct (outcome sys ["dig"; "+short"; "TXT"; name] 30 st) as [e | x].
  - repeat split; try (intros c Hc; discriminate Hc). simpl. tauto.
  - destruct (exit_code x =? 0).
    + destruct (strip_ends (Py.remove_char Py.dquote (out_text x)))
        as (H1 & H2 & H3).
      split; [|split; [exact H1 | split; [exact H2 | exact H3]]].
      intros Hin. apply strip_chars in Hin.
      now apply remove_char_gone in Hin.
    + repeat split; try (intros c Hc; discriminate Hc). simpl. tauto.
Qed.

End DigHelpers.

Lemma dig_txt_is_clean_witness :
  fst (dig_txt Script.sys_401 "insightpulseai.com" Script.start)
  = inr "v=spf1 include:zohomail.com include:mailgun.org ~all"
  /\ ~ In Py.dquote
       (list_ascii_of_string
          "v=spf1 include:zohomail.com include:mailgun.org ~all").
Proof.
  split; [reflexivity|].
  apply (dig_txt_is_clean Script.sys_401 "insightpulseai.com" Script.start
           "v=spf1 include:zohomail.com include:mailgun.org ~all"
           (after_spawn Script.sys_401
              (Script.dig "TXT" "insightpulseai.com") 30 Script.start)
           eq_refl).
Defined.

(* ================================================================== *)
(** * http_get *)
(* ================================================================== *)

Lemma upper_upper_char (c : ascii) :
  Py.upper_char (Py.upper_char c) = Py.upper_char c.
Proof. each_char c; reflexivity. Qed.

Lemma lower_idem (s : string) : Py.lower (Py.lower s) = Py.lower s.
Proof.
  unfold Py.lower. induction s as [|c s IH]; simpl; [reflexivity|].
  now rewrite lower_lower_char, IH.
Qed.

Lemma capitalize_idem (k : string) : capitalize (capitalize k) = capitalize k.
Proof.
  destruct k as [|c r]; [reflexivity|]. simpl.
  now rewrite upper_upper_char, lower_idem.
Qed.

Lemma header_get_set (h : list (string * string)) (k v : string) :
  header_get (header_set h k v) k = Some v.
Proof.
  induction h as [|[k' v'] h IH]; simpl.
  - now rewrite String.eqb_refl.
  - destruct (String.eqb_spec k' k); simpl.
    + now rewrite String.eqb_refl.
    + apply String.eqb_neq in n. now rewrite n.
Qed.

Lemma header_get_set_other (h : list (string * string)) (k k' v : string) :
  k' <> k -> header_get (header_set h k v) k' = header_get h k'.
Proof.
  intros Hne. induction h as [|[a b] h IH]; simpl.
  - apply not_eq_sym in Hne. apply String.eqb_neq in Hne. now rewrite Hne.
  - destruct (String.eqb_spec a k); simpl.
    + subst a. apply not_eq_sym in Hne. apply String.eqb_neq in Hne.
      now rewrite Hne.
    + now rewrite IH.
Qed.

Lemma header_set_keys (h : list (string * string)) (k v a : string) :
  In a (map fst (header_set h k v)) <-> a = k \/ In a (map fst h).
Proof.
  induction h as [|[k' v'] h IH]; simpl; [intuition|].
  destruct (String.eqb_spec k' k); simpl.
  - subst k'. intuition.
  - rewrite IH. intuition.
Qed.

Lemma header_set_nodup (h : list (string * string)) (k v : string) :
  NoDup (map fst h) -> NoDup (map fst (header_set h k v)).
Proof.
  induction h as [|[k' v'] h IH]; simpl; intros H.
  - constructor; [simpl; tauto | constructor].
  - inversion H as [|? ? Hnotin Hnd]. subst.
    destruct (String.eqb_spec k' k); simpl.
    + subst k'. now constructor.
    + constructor; [|now apply IH].
      rewrite header_set_keys. intros [E | E]; [congruence | contradiction].
Qed.

(** Folding the headers into a request keeps its URL and method. *)
Lemma request_fold (hs : list (string * string)) (req : Request) :
  let req' := fold_left (fun r kv => add_header r (fst kv) (snd kv)) hs req in
  req_url req' = req_url req /\ req_method req' = req_method req
  /\ (NoDup (map fst (req_headers req)) ->
      NoDup (map fst (req_headers req')))
  /\ ((forall a, In a (map fst (req_headers req)) -> capitalize a = a) ->
      forall a, In a (map fst (req_headers req')) -> capitalize a = a).
Proof.
  revert req. induction hs as [|[k v] hs IH]; intros req; simpl.
  - tauto.
  - destruct (IH (add_header req k v)) as (Hu & Hm & Hn & Hc).
    cbn [req_url req_method req_headers add_header fst snd] in *.
    split; [exact Hu|]. split; [exact Hm|]. split.
    + intros H. apply Hn. now apply header_set_nodup.
    + intros H. apply Hc. intros a Ha. apply header_set_keys in Ha.
      destruct Ha as [-> | Ha]; [apply capitalize_idem | now apply H].
Qed.

Lemma request_fold_last (hs : list (string * string)) (k v : string)
    (req : Request) :
  header_get
    (req_headers
       (fold_left (fun r kv => add_header r (fst kv) (snd kv))
          (hs ++ [(k, v)]) req))
    (capitalize k) = Some v.
Proof.
  rewrite fold_left_app. simpl. apply header_get_set.
Qed.

(** The request [http_get] opens is a GET of the URL it is given.  Its
    header names are capitalised (first letter in upper case, the others in
    lower case) and no name occurs twice, so that of two headers whose
    names differ in case only the last one is sent. *)
Theorem http_get_request_headers :
  forall (url : string) (headers : option (list (string * string))),
    req_url (request_of url headers) = url
    /\ req_method (request_of url headers) = "GET"
    /\ NoDup (map fst (req_headers (request_of url headers)))
    /\ (forall a, In a (map fst (req_headers (request_of url headers))) ->
                  capitalize a = a)
    /\ (forall (hs : list (string * string)) (k v : string),
          headers = Some (hs ++ [(k, v)])%list ->
          header_get (req_headers (request_of url headers)) (capitalize k)
          = Some v).
Proof.
  intros url headers. unfold request_of. destruct headers as [hs|].
  - destruct (request_fold hs (mkRequest url "GET" [])) as (Hu & Hm & Hn & Hc).
    split; [exact Hu|]. split; [exact Hm|].
    split; [apply Hn; constructor|].
    split; [apply Hc; simpl; tauto|].
    intros hs' k v E. inversion E. apply request_fold_last.
  - simpl. split; [reflexivity|]. split; [reflexivity|].
    split; [constructor|]. split; [tauto|]. intros hs k v E. discriminate E.
Qed.

Lemma http_get_request_headers_witness :
  header_get
    (req_headers
       (request_of "https://api.mailgun.net/v3/domains"
          (Some ([("accept", "text/plain")]
                 ++ [("ACCEPT", "application/json")])%list)))
    "Accept" = Some "application/json".
Proof.
  destruct (http_get_request_headers "https://api.mailgun.net/v3/domains"
              (Some ([("accept", "text/plain")]
                     ++ [("ACCEPT", "application/json")])%list))
    as (_ & _ & _ & _ & H).
  exact (H [("accept", "text/plain")] "ACCEPT" "application/json" eq_refl).
Defined.

Section HttpGet.

Context {W : Type} (sys : System W).


End HttpGet.


(* ================================================================== *)
(** * More on the meta-reference filter *)
(* ================================================================== *)

Lemma lower_app (a b : string) :
  Py.lower (a ++ b) = Py.lower a ++ Py.lower b.
Proof.
  unfold Py.lower. induction a as [|c a IH]; simpl; [reflexivity|].
  now rewrite IH.
Qed.


Lemma lower_nl (c : ascii) :
  Ascii.eqb (Py.lower_char c) Py.nl = Ascii.eqb c Py.nl.
Proof. each_char c; reflexivity. Qed.

Lemma lower_one_line (s : string) : one_line (Py.lower s) = one_line s.
Proof.
  unfold Py.lower. induction s as [|c s IH]; simpl; [reflexivity|].
  now rewrite lower_nl, IH.
Qed.

Lemma append_assoc (a b c : string) : (a ++ b) ++ c = a ++ (b ++ c).
Proof. induction a as [|x a IH]; simpl; [reflexivity | now rewrite IH]. Qed.


(** A match somewhere after a prefix is found by the search. *)
Lemma search_skip (ic : bool) (re : Re.regex) (pre s : string) :
  Re.match_here ic re s = true -> Re.search_re ic re (pre ++ s) = true.
Proof.
  intros H. induction pre as [|c pre IH].
  - destruct s; simpl in *; now rewrite H.
  - simpl. rewrite IH. apply orb_true_r.
Qed.









Lemma match_lits_same (w w' : string) (re : Re.regex) (s : string) :
  Py.lower w = Py.lower w' ->
  Re.match_here true (lits w ++ re)%list (w' ++ s) = Re.match_here true re s.
Proof.
  revert w'. induction w as [|d w IH]; intros [|c w'] H;
    try discriminate H.
  - reflexivity.
  - unfold Py.lower in H. cbn [Py.map_chars] in H. inversion H as [[Hc Hw]].
    cbn [lits app append Re.match_here Re.atom_match].
    rewrite Hc, Ascii.eqb_refl. cbn [andb]. now apply IH.
Qed.

Lemma match_star_any (ic : bool) (k : string -> bool) (gap rest : string) :
  one_line gap = true -> k rest = true ->
  Re.match_star ic Re.AnyChar k (gap ++ rest) = true.
Proof.
  intros Hg Hk. induction gap as [|c gap IH].
  - destruct rest; simpl; now rewrite Hk.
  - simpl in Hg. apply andb_true_iff in Hg. destruct Hg as (Hc & Hg).
    cbn [append Re.match_star Re.atom_match]. rewrite Hc, (IH Hg).
    apply orb_true_r.
Qed.

Lemma lits_alone (w w' s : string) :
  Py.lower w = Py.lower w' ->
  Re.match_here true (lits w) (w' ++ s) = true.
Proof.
  intros H. rewrite <- (app_nil_r (lits w)).
  now rewrite match_lits_same.
Qed.

(** A word, anything on the line, then the domain. *)
Lemma word_gap_domain (w w' d d' gap post : string) :
  Py.lower w = Py.lower w' -> Py.lower d = Py.lower d' ->
  one_line gap = true ->
  Re.match_here true (lits w ++ Re.Star Re.AnyChar :: lits d)%list
    (w' ++ gap ++ d' ++ post) = true.
Proof.
  intros Hw Hd Hg. rewrite match_lits_same by assumption.
  cbn [Re.match_here]. apply match_star_any; [assumption|].
  now apply lits_alone.
Qed.

Ltac by_pattern p :=
  unfold DomainPolicy.is_policy_meta_reference;
  apply existsb_exists; exists p;
  split; [simpl; tauto|]; unfold Re.search;
  rewrite !lower_app; apply search_skip.

(** The filter looks at nothing but the phrase: a line that holds
    [no insightpulseai.net], the escaped domain, one of the words
    [forbidden], [checking], [block], [ensure], [fail], [pattern] and
    [policy] somewhere before the domain, or [forbidden] somewhere after
    it, is a meta-reference whatever stands before and after, a real use
    of the domain included. *)
Theorem meta_reference_suppresses :
  forall pre post : string,
    DomainPolicy.is_policy_meta_reference
      (pre ++ "no insightpulseai.net" ++ post) = true
    /\ DomainPolicy.is_policy_meta_reference
         (pre ++ "insightpulseai\.net" ++ post) = true
    /\ (forall word gap : string,
          In word meta_words -> one_line gap = true ->
          DomainPolicy.is_policy_meta_reference
            (pre ++ word ++ gap ++ "insightpulseai.net" ++ post) = true)
    /\ (forall gap : string,
          one_line gap = true ->
          DomainPolicy.is_policy_meta_reference
            (pre ++ "insightpulseai.net" ++ gap ++ "forbidden" ++ post)
          = true).
Proof.
  intros pre post. split; [|split; [|split]].
  - by_pattern "no\s+insightpulseai\.net". vm_compute. reflexivity.
  - by_pattern "insightpulseai\\\.net". vm_compute. reflexivity.
  - intros word gap Hin Hg. rewrite <- lower_one_line in Hg.
    simpl in Hin.
    destruct Hin as [<- | [<- | [<- | [<- | [<- | [<- | [<- | []]]]]]]].
    + by_pattern "forbidden.*insightpulseai\.net".
      now apply (word_gap_domain "forbidden" _ "insightpulseai.net").
    + by_pattern "checking.*insightpulseai\.net".
      now apply (word_gap_domain "checking" _ "insightpulseai.net").
    + by_pattern "block.*insightpulseai\.net".
      now apply (word_gap_domain "block" _ "insightpulseai.net").
    + by_pattern "ensure.*insightpulseai\.net".
      now apply (word_gap_domain "ensure" _ "insightpulseai.net").
    + by_pattern "FAIL.*insightpulseai\.net".
      now apply (word_gap_domain "FAIL" _ "insightpulseai.net").
    + by_pattern "pattern.*insightpulseai\.net".
      now apply (word_gap_domain "pattern" _ "insightpulseai.net").
    + by_pattern "policy.*insightpulseai\.net".
      now apply (word_gap_domain "policy" _ "insightpulseai.net").
  - intros gap Hg. rewrite <- lower_one_line in Hg.
    by_pattern "insightpulseai\.net.*forbidden".
    now apply (word_gap_domain "insightpulseai.net" _ "forbidden").
Qed.

Lemma meta_reference_suppresses_witness :
  DomainPolicy.is_policy_meta_reference
    ("conf.py:3:# " ++ "policy" ++ ": see " ++ "insightpulseai.net"
     ++ "; URL = https://insightpulseai.net/") = true.
Proof.
  destruct (meta_reference_suppresses "conf.py:3:# "
              "; URL = https://insightpulseai.net/") as (_ & _ & H & _).
  apply H; [simpl; tauto | reflexivity].
Defined.

(* ================================================================== *)
(** * More on the domain policy check *)
(* ================================================================== *)

Section DomainPolicyMore.

Context {W : Type} (sys : System W).



End DomainPolicyMore.



(* ================================================================== *)
(** * The Mailgun check as a whole *)
(* ================================================================== *)

Section MailgunWhole.

Context {W : Type} (sys : System W).

Import Mailgun.






















End MailgunWhole.





(* ================================================================== *)
(** * The validators *)
(* ================================================================== *)

Lemma append_nil_r (s : string) : s ++ "" = s.
Proof. induction s as [ | c s IH ]; simpl; [ reflexivity | now rewrite IH ]. Qed.

Lemma append_length (a b : string) :
  String.length (a ++ b) = (String.length a + String.length b)%nat.
Proof. induction a as [ | c a IH ]; simpl; [ reflexivity | now rewrite IH ]. Qed.

(** A text of [a*] is empty, or a non-empty text of [a] followed by a text
    of [a*]. *)
Lemma lang_star_cases (r : Rx.rx) (s : string) :
  Rx.lang r s ->
  forall x, r = Rx.Star x ->
  s = "" \/
  exists t u, s = t ++ u /\ t <> "" /\ Rx.lang x t /\ Rx.lang (Rx.Star x) u.
Proof.
  induction 1 as [ | | | | | a | a s1 s2 H1 _ H2 IH2 ]; intros x E;
    try discriminate.
  - now left.
  - injection E as ->.
    destruct s1 as [ | c s1 ].
    + simpl. now apply IH2.
    + right. exists (String c s1), s2. repeat split; try assumption.
      discriminate.
Qed.

(** The iteration finds what [a*] stands for, given that the matcher of
    [a] finds what [a] stands for. *)
Lemma star_sound (a : Rx.rx) (ma : (string -> bool) -> string -> bool) :
  (forall k s, ma k s = true ->
     exists s1 s2, s = s1 ++ s2 /\ Rx.lang a s1 /\ k s2 = true) ->
  forall k n s, Rx.star ma k n s = true ->
    exists s1 s2, s = s1 ++ s2 /\ Rx.lang (Rx.Star a) s1 /\ k s2 = true.
Proof.
  intros Ha k n. induction n as [ | n IH ]; intros s H; simpl in H.
  - destruct (k s) eqn:Hk; [ | discriminate ].
    exists "", s. repeat split; [ constructor | exact Hk ].
  - destruct (k s) eqn:Hks.
    + exists "", s. repeat split; [ constructor | exact Hks ].
    + apply Ha in H as (t1 & t2 & -> & Lt & H).
      destruct (String.length t2 <? String.length (t1 ++ t2))%nat;
        [ | discriminate ].
      apply IH in H as (u1 & u2 & -> & Lu & Hk).
      exists (t1 ++ u1), u2. rewrite append_assoc.
      repeat split; [ now constructor | exact Hk ].
Qed.

Lemma star_complete (a : Rx.rx) (ma : (string -> bool) -> string -> bool) :
  (forall k s1 s2, Rx.lang a s1 -> k s2 = true -> ma k (s1 ++ s2) = true) ->
  forall k n s1 s2,
    (String.length (s1 ++ s2) <= n)%nat ->
    Rx.lang (Rx.Star a) s1 -> k s2 = true ->
    Rx.star ma k n (s1 ++ s2) = true.
Proof.
  intros Ha k n. induction n as [ | n IH ]; intros s1 s2 Hn L Hk.
  - destruct (lang_star_cases _ _ L a eq_refl) as [ -> | (t & u & -> & Ht & _) ].
    + simpl. now rewrite Hk.
    + destruct t; [ congruence | simpl in Hn; lia ].
  - destruct (lang_star_cases _ _ L a eq_refl)
      as [ -> | (t & u & -> & Ht & Lt & Lu) ].
    + simpl. now rewrite Hk.
    + simpl. destruct (k ((t ++ u) ++ s2)); [ reflexivity | ].
      rewrite append_assoc. apply Ha; [ exact Lt | ].
      replace (String.length (u ++ s2) <? String.length (t ++ u ++ s2))%nat
        with true.
      * apply IH; try assumption.
        rewrite append_assoc in Hn. rewrite append_length in Hn.
        destruct t; [ congruence | simpl in Hn; lia ].
      * symmetry. apply Nat.ltb_lt. rewrite !append_length.
        destruct t; [ congruence | simpl; lia ].
Qed.

(** The matcher is right: it accepts exactly when the text splits into a
    text of the pattern and a rest that the continuation accepts. *)
Lemma matches_sound (r : Rx.rx) :
  forall k s, Rx.matches r k s = true ->
    exists s1 s2, s = s1 ++ s2 /\ Rx.lang r s1 /\ k s2 = true.
Proof.
  induction r as [ | f | a IHa b IHb | a IHa b IHb | a IHa ]; intros k s H;
    simpl in H.
  - exists "", s. repeat split; [ constructor | exact H ].
  - destruct s as [ | c s ]; [ discriminate | ].
    destruct (f c) eqn:Hf; [ | discriminate ].
    exists (String c ""), s. repeat split; [ now constructor | exact H ].
  - apply IHa in H as (s1 & s2 & -> & L1 & H).
    apply IHb in H as (t1 & t2 & -> & L2 & Hk).
    exists (s1 ++ t1), t2. rewrite append_assoc.
    repeat split; [ now constructor | exact Hk ].
  - destruct (Rx.matches a k s) eqn:Ha.
    + apply IHa in Ha as (s1 & s2 & -> & L & Hk).
      exists s1, s2. repeat split; [ now apply Rx.LAltL | exact Hk ].
    + apply IHb in H as (s1 & s2 & -> & L & Hk).
      exists s1, s2. repeat split; [ now apply Rx.LAltR | exact Hk ].
  - exact (star_sound a (Rx.matches a) IHa k _ s H).
Qed.

Lemma matches_complete (r : Rx.rx) (s1 : string) :
  Rx.lang r s1 ->
  forall k s2, k s2 = true -> Rx.matches r k (s1 ++ s2) = true.
Proof.
  revert s1.
  induction r as [ | f | a IHa b IHb | a IHa b IHb | a IHa ]; intros s1 L k s2 Hk.
  - inversion L; subst. exact Hk.
  - inversion L; subst. simpl. now rewrite H0, Hk.
  - inversion L; subst. simpl. rewrite append_assoc.
    apply IHa; [ assumption | ]. now apply IHb.
  - inversion L; subst; simpl.
    + now rewrite IHa.
    + destruct (Rx.matches a k (s1 ++ s2)); [ reflexivity | now apply IHb ].
  - simpl. apply (star_complete a); try assumption; [ | lia ].
    intros k' t1 t2 Lt Hk'. now apply IHa.
Qed.

Lemma at_end_cases (rest : string) :
  Rx.at_end rest = true <-> rest = "" \/ rest = String Py.nl "".
Proof.
  destruct rest as [ | c [ | d rest ] ]; simpl.
  - split; [ now left | reflexivity ].
  - rewrite Ascii.eqb_eq. split.
    + intros ->. now right.
    + intros [ E | E ]; [ discriminate | now injection E ].
  - split; [ discriminate | intros [ E | E ]; discriminate ].
Qed.

(** What a validator built on [^pattern$] accepts: the texts of the
    pattern, with or without one newline after them. *)
Lemma fullmatch_spec (r : Rx.rx) (s : string) :
  Rx.fullmatch r s = true <->
  exists body, Rx.lang r body /\ (s = body \/ s = body ++ String Py.nl "").
Proof.
  unfold Rx.fullmatch. split.
  - intros H. apply matches_sound in H as (s1 & s2 & -> & L & Hk).
    apply at_end_cases in Hk as [ -> | -> ]; exists s1; split; try assumption.
    + left. apply append_nil_r.
    + now right.
  - intros (body & L & [ -> | -> ]).
    + rewrite <- (append_nil_r body). now apply matches_complete.
    + now apply matches_complete.
Qed.

(** ** What the patterns stand for *)

Lemma all_chars_app (f : ascii -> bool) (a b : string) :
  all_chars f (a ++ b) = all_chars f a && all_chars f b.
Proof.
  induction a as [ | c a IH ]; simpl; [ reflexivity | ].
  now rewrite IH, andb_assoc.
Qed.

Lemma all_chars_weaken (f g : ascii -> bool) (s : string) :
  (forall c, f c = true -> g c = true) ->
  all_chars f s = true -> all_chars g s = true.
Proof.
  intros Hfg. induction s as [ | c s IH ]; simpl; [ reflexivity | ].
  intros H. apply andb_true_iff in H as [ Hc Hs ].
  now rewrite (Hfg _ Hc), IH.
Qed.

Lemma lang_eps (s : string) : Rx.lang Rx.Eps s <-> s = "".
Proof. split; [ now inversion 1 | intros ->; constructor ]. Qed.

Lemma lang_cls (f : ascii -> bool) (s : string) :
  Rx.lang (Rx.Cls f) s <-> exists c, s = String c "" /\ f c = true.
Proof.
  split.
  - inversion 1; subst. now exists c.
  - intros (c & -> & H). now constructor.
Qed.

Lemma lang_chr (c : ascii) (s : string) :
  Rx.lang (Rx.Chr c) s <-> s = String c "".
Proof.
  unfold Rx.Chr. rewrite lang_cls. split.
  - intros (d & -> & H). apply Ascii.eqb_eq in H. now subst.
  - intros ->. exists c. split; [ reflexivity | apply Ascii.eqb_refl ].
Qed.

Lemma lang_seq (a b : Rx.rx) (s : string) :
  Rx.lang (Rx.Seq a b) s <->
  exists s1 s2, s = s1 ++ s2 /\ Rx.lang a s1 /\ Rx.lang b s2.
Proof.
  split.
  - inversion 1; subst. now exists s1, s2.
  - intros (s1 & s2 & -> & H1 & H2). now constructor.
Qed.

Lemma lang_alt (a b : Rx.rx) (s : string) :
  Rx.lang (Rx.Alt a b) s <-> Rx.lang a s \/ Rx.lang b s.
Proof.
  split.
  - inversion 1; subst; [ now left | now right ].
  - intros [ H | H ]; [ now apply Rx.LAltL | now apply Rx.LAltR ].
Qed.

Lemma lang_opt (a : Rx.rx) (s : string) :
  Rx.lang (Rx.Opt a) s <-> Rx.lang a s \/ s = "".
Proof. unfold Rx.Opt. now rewrite lang_alt, lang_eps. Qed.

(** Induction over the rounds of [a*]. *)
Lemma lang_star_ind (a : Rx.rx) (P : string -> Prop) :
  P "" ->
  (forall t u, Rx.lang a t -> Rx.lang (Rx.Star a) u -> P u -> P (t ++ u)) ->
  forall s, Rx.lang (Rx.Star a) s -> P s.
Proof.
  intros H0 Hstep s L. remember (Rx.Star a) as r eqn:E.
  induction L as [ | | | | | a' | a' s1 s2 L1 _ L2 IH2 ]; try discriminate.
  - exact H0.
  - injection E as ->. apply Hstep; [ assumption | assumption | now apply IH2 ].
Qed.

Lemma lang_star_cls (f : ascii -> bool) (s : string) :
  Rx.lang (Rx.Star (Rx.Cls f)) s <-> all_chars f s = true.
Proof.
  split.
  - revert s. apply lang_star_ind; [ reflexivity | ].
    intros t u Lt _ IH. apply lang_cls in Lt as (c & -> & Hc).
    simpl. now rewrite Hc.
  - induction s as [ | c s IH ]; simpl; intros H; [ constructor | ].
    apply andb_true_iff in H as [ Hc Hs ].
    change (String c s) with (String c "" ++ s).
    constructor; [ now constructor | now apply IH ].
Qed.

Lemma lang_exactly_cls (f : ascii -> bool) (n : nat) (s : string) :
  Rx.lang (Rx.Exactly n (Rx.Cls f)) s <->
  String.length s = n /\ all_chars f s = true.
Proof.
  revert s. induction n as [ | n IH ]; intros s; simpl.
  - rewrite lang_eps. split.
    + intros ->. now split.
    + intros [ H _ ]. now destruct s.
  - rewrite lang_seq. split.
    + intros (s1 & s2 & -> & L1 & L2).
      apply lang_cls in L1 as (c & -> & Hc). apply IH in L2 as [ <- Hs ].
      simpl. now rewrite Hc, Hs.
    + intros [ Hn H ]. destruct s as [ | c s ]; [ discriminate | ].
      simpl in H. apply andb_true_iff in H as [ Hc Hs ].
      exists (String c ""), s. repeat split.
      * now constructor.
      * apply IH. split; [ now injection Hn | assumption ].
Qed.

Lemma lang_upto_cls (f : ascii -> bool) (n : nat) (s : string) :
  Rx.lang (Rx.UpTo n (Rx.Cls f)) s <->
  (String.length s <= n)%nat /\ all_chars f s = true.
Proof.
  revert s. induction n as [ | n IH ]; intros s; simpl.
  - rewrite lang_eps. split.
    + intros ->. now split.
    + intros [ H _ ]. destruct s; [ reflexivity | simpl in H; lia ].
  - rewrite lang_opt, lang_seq. split.
    + intros [ (s1 & s2 & -> & L1 & L2) | -> ].
      * apply lang_cls in L1 as (c & -> & Hc). apply IH in L2 as [ Hn Hs ].
        simpl. rewrite Hc, Hs. split; [ lia | reflexivity ].
      * simpl. split; [ lia | reflexivity ].
    + intros [ Hn H ]. destruct s as [ | c s ]; [ now right | left ].
      simpl in H, Hn. apply andb_true_iff in H as [ Hc Hs ].
      exists (String c ""), s. repeat split.
      * now constructor.
      * apply IH. split; [ lia | assumption ].
Qed.

(** A text can be cut after any number of its characters. *)
Lemma string_cut (n : nat) (s : string) :
  (n <= String.length s)%nat ->
  exists p q, s = p ++ q /\ String.length p = n.
Proof.
  revert s. induction n as [ | n IH ]; intros s Hn.
  - now exists "", s.
  - destruct s as [ | c s ]; [ simpl in Hn; lia | ].
    destruct (IH s) as (p & q & -> & Hp); [ simpl in Hn; lia | ].
    exists (String c p), q. simpl. now rewrite Hp.
Qed.

Lemma lang_between_cls (f : ascii -> bool) (lo hi : nat) (s : string) :
  (lo <= hi)%nat ->
  Rx.lang (Rx.Between lo hi (Rx.Cls f)) s <->
  (lo <= String.length s <= hi)%nat /\ all_chars f s = true.
Proof.
  intros Hle. unfold Rx.Between. rewrite lang_seq. split.
  - intros (s1 & s2 & -> & L1 & L2).
    apply lang_exactly_cls in L1 as [ H1 A1 ].
    apply lang_upto_cls in L2 as [ H2 A2 ].
    rewrite append_length, all_chars_app, A1, A2. split; [ lia | reflexivity ].
  - intros [ Hn H ]. destruct (string_cut lo s) as (p & q & -> & Hp); [ lia | ].
    rewrite all_chars_app in H. apply andb_true_iff in H as [ A1 A2 ].
    rewrite append_length in Hn.
    exists p, q. repeat split.
    + now apply lang_exactly_cls.
    + apply lang_upto_cls. split; [ lia | assumption ].
Qed.

Lemma lang_atleast_cls (f : ascii -> bool) (n : nat) (s : string) :
  Rx.lang (Rx.AtLeast n (Rx.Cls f)) s <->
  (n <= String.length s)%nat /\ all_chars f s = true.
Proof.
  unfold Rx.AtLeast. rewrite lang_seq. split.
  - intros (s1 & s2 & -> & L1 & L2).
    apply lang_exactly_cls in L1 as [ H1 A1 ].
    apply lang_star_cls in L2.
    rewrite append_length, all_chars_app, A1, L2. split; [ lia | reflexivity ].
  - intros [ Hn H ]. destruct (string_cut n s) as (p & q & -> & Hp); [ lia | ].
    rewrite all_chars_app in H. apply andb_true_iff in H as [ A1 A2 ].
    exists p, q. repeat split.
    + now apply lang_exactly_cls.
    + now apply lang_star_cls.
Qed.

Lemma lang_plus_cls (f : ascii -> bool) (s : string) :
  Rx.lang (Rx.Plus (Rx.Cls f)) s <-> s <> "" /\ all_chars f s = true.
Proof.
  unfold Rx.Plus. rewrite lang_seq. split.
  - intros (s1 & s2 & -> & L1 & L2).
    apply lang_cls in L1 as (c & -> & Hc). apply lang_star_cls in L2.
    simpl. rewrite Hc, L2. split; [ discriminate | reflexivity ].
  - intros [ Hs H ]. destruct s as [ | c s ]; [ congruence | ].
    simpl in H. apply andb_true_iff in H as [ Hc A ].
    exists (String c ""), s. repeat split.
    + now constructor.
    + now apply lang_star_cls.
Qed.

(** ** Domain names *)

Lemma string_snoc (s : string) :
  s <> "" -> exists init c, s = init ++ String c "".
Proof.
  induction s as [ | x s IH ]; intros H; [ congruence | ].
  destruct s as [ | y s ].
  - now exists "", x.
  - destruct IH as (init & c & E); [ discriminate | ].
    exists (String x init), c. simpl. now rewrite <- E.
Qed.

Lemma last_char_snoc (init : string) (c : ascii) :
  last_char (init ++ String c "") = Some c.
Proof.
  unfold last_char. induction init as [ | x init IH ]; [ reflexivity | ].
  simpl append. simpl String.length. rewrite Nat.sub_1_r in IH.
  rewrite Nat.sub_1_r. simpl Nat.pred.
  rewrite append_length in *. simpl in *.
  replace (String.length init + 1)%nat with (S (String.length init)) in * by lia.
  simpl in *. exact IH.
Qed.

Lemma alnum_label_char (c : ascii) : Rx.is_alnum c = true -> label_char c = true.
Proof. unfold label_char. now intros ->. Qed.

Lemma join_cons (sep x : string) (r : list string) :
  r <> [] -> Py.join sep (x :: r) = x ++ sep ++ Py.join sep r.
Proof. destruct r; [ congruence | reflexivity ]. Qed.

Lemma join_last (sep t : string) (l : list string) :
  Py.join sep (l ++ [t])%list = Py.join sep (l ++ [""])%list ++ t.
Proof.
  induction l as [ | x l IH ]; [ reflexivity | ].
  rewrite <- !app_comm_cons.
  rewrite !join_cons by (destruct l; discriminate).
  now rewrite IH, !append_assoc.
Qed.

(** One label and its dot. *)
Lemma lang_label_dot (s : string) :
  Rx.lang label_dot s <-> exists l, label_ok l = true /\ s = l ++ ".".
Proof.
  unfold label_dot, alnum. split.
  - intros L. apply lang_seq in L as (s1 & s23 & -> & L1 & L23).
    apply lang_seq in L23 as (s2 & s3 & -> & L2 & L3).
    apply lang_cls in L1 as (c & -> & Hc). apply lang_chr in L3 as ->.
    exists (String c s2). split; [ | now rewrite <- append_assoc ].
    apply lang_opt in L2 as [ L2 | -> ].
    + apply lang_seq in L2 as (inner & s4 & -> & Li & L4).
      apply lang_cls in L4 as (d & -> & Hd).
      apply lang_between_cls in Li as [ Hn Hi ]; [ | lia ].
      assert (Hlast : last_char (String c (inner ++ String d "")) = Some d)
        by apply (last_char_snoc (String c inner)).
      unfold label_ok. rewrite Hlast.
      cbn [first_char String.get char_is all_chars String.length].
      rewrite Hc, Hd, all_chars_app, Hi, (alnum_label_char _ Hc).
      cbn [all_chars]. rewrite (alnum_label_char _ Hd), append_length.
      rewrite !andb_true_r. apply Nat.leb_le. simpl. lia.
    + unfold label_ok. simpl. now rewrite Hc, (alnum_label_char _ Hc).
  - intros (l & Hok & ->). unfold label_ok in Hok.
    apply andb_true_iff in Hok as [ Hok Hlast ].
    apply andb_true_iff in Hok as [ Hok Hfirst ].
    apply andb_true_iff in Hok as [ Hlen Hall ].
    apply Nat.leb_le in Hlen.
    destruct l as [ | c r ]; [ discriminate | ]. simpl in Hfirst.
    change (String c r ++ ".") with (String c "" ++ (r ++ ".")).
    constructor; [ now constructor | ].
    constructor; [ | now apply lang_chr ].
    apply lang_opt. destruct r as [ | y r ]; [ now right | left ].
    destruct (string_snoc (String y r)) as (inner & d & E); [ discriminate | ].
    rewrite E in *. clear E.
    rewrite (last_char_snoc (String c inner) d : 
               last_char (String c (inner ++ String d "")) = Some d) in Hlast.
    simpl in Hlast.
    simpl in Hall. apply andb_true_iff in Hall as [ _ Hall ].
    rewrite all_chars_app in Hall. apply andb_true_iff in Hall as [ Hi _ ].
    simpl in Hlen. rewrite append_length in Hlen. simpl in Hlen.
    constructor; [ | now constructor ].
    apply lang_between_cls; [ lia | ]. split; [ lia | assumption ].
Qed.

(** Any number of labels, each with its dot. *)
Lemma lang_labels (s : string) :
  Rx.lang (Rx.Star label_dot) s <->
  exists labels, Forall (fun l => label_ok l = true) labels /\
    s = Py.join "." (labels ++ [""])%list.
Proof.
  split.
  - revert s. apply lang_star_ind.
    + now exists [].
    + intros t u Lt _ (labels & Hall & ->).
      apply lang_label_dot in Lt as (l & Hl & ->).
      exists (l :: labels). split; [ now constructor | ].
      rewrite <- app_comm_cons, join_cons by (destruct labels; discriminate).
      now rewrite append_assoc.
  - intros (labels & Hall & ->). induction Hall as [ | l labels Hl _ IH ].
    + constructor.
    + rewrite <- app_comm_cons, join_cons by (destruct labels; discriminate).
      rewrite <- append_assoc. constructor; [ | exact IH ].
      apply lang_label_dot. now exists l.
Qed.

Lemma lang_labels_plus (s : string) :
  Rx.lang (Rx.Plus label_dot) s <->
  exists labels, labels <> [] /\ Forall (fun l => label_ok l = true) labels /\
    s = Py.join "." (labels ++ [""])%list.
Proof.
  unfold Rx.Plus. rewrite lang_seq. split.
  - intros (s1 & s2 & -> & L1 & L2).
    apply lang_label_dot in L1 as (l & Hl & ->).
    apply lang_labels in L2 as (labels & Hall & ->).
    exists (l :: labels). split; [ discriminate | ].
    split; [ now constructor | ].
    rewrite <- app_comm_cons, join_cons by (destruct labels; discriminate).
    now rewrite append_assoc.
  - intros (labels & Hne & Hall & ->).
    destruct Hall as [ | l labels Hl Hall ]; [ congruence | ].
    rewrite <- app_comm_cons, join_cons by (destruct labels; discriminate).
    rewrite <- append_assoc. eexists _, _. split; [ reflexivity | ]. split.
    + apply lang_label_dot. now exists l.
    + apply lang_labels. now exists labels.
Qed.

Lemma lang_tld (t : string) :
  Rx.lang (Rx.AtLeast 2 alpha) t <-> tld_ok t = true.
Proof.
  unfold alpha, tld_ok. rewrite lang_atleast_cls, andb_true_iff, Nat.leb_le.
  reflexivity.
Qed.

Lemma lang_domain (body : string) :
  Rx.lang domain_pattern body <->
  exists labels tld,
    labels <> [] /\ Forall (fun l => label_ok l = true) labels /\
    tld_ok tld = true /\ body = domain_of labels tld.
Proof.
  unfold domain_pattern, domain_of. rewrite lang_seq. split.
  - intros (s1 & s2 & -> & L1 & L2).
    apply lang_labels_plus in L1 as (labels & Hne & Hall & ->).
    apply lang_tld in L2.
    exists labels, s2. repeat split; try assumption.
    symmetry. apply join_last.
  - intros (labels & tld & Hne & Hall & Ht & ->).
    rewrite join_last. eexists _, _. split; [ reflexivity | ]. split.
    + apply lang_labels_plus. now exists labels.
    + now apply lang_tld.
Qed.

(** validate_domain accepts exactly the names made of one or more labels
    and a last label of two or more letters, joined by dots; each label has
    1 to 63 letters, digits and hyphens and neither starts nor ends with a
    hyphen.  One newline after the name is accepted as well. *)
Theorem validate_domain_spec (domain : string) :
  validate_domain domain = true <->
  exists labels tld,
    labels <> [] /\ Forall (fun l => label_ok l = true) labels /\
    tld_ok tld = true /\ with_newline (domain_of labels tld) domain.
Proof.
  unfold validate_domain, with_newline. rewrite fullmatch_spec. split.
  - intros (body & L & H).
    apply lang_domain in L as (labels & tld & Hne & Hall & Ht & ->).
    now exists labels, tld.
  - intros (labels & tld & Hne & Hall & Ht & H).
    exists (domain_of labels tld). split; [ | exact H ].
    apply lang_domain. now exists labels, tld.
Qed.

(** ** E-mail addresses *)

Lemma lang_email (body : string) :
  Rx.lang email_pattern body <->
  exists local dom tld,
    local <> "" /\ all_chars email_local_char local = true /\
    dom <> "" /\ all_chars email_domain_char dom = true /\
    tld_ok tld = true /\ body = address_of local dom tld.
Proof.
  unfold email_pattern, address_of. split.
  - intros L. apply lang_seq in L as (local & r1 & -> & L1 & L).
    apply lang_seq in L as (at_ & r2 & -> & L2 & L).
    apply lang_seq in L as (dom & r3 & -> & L3 & L).
    apply lang_seq in L as (dot & tld & -> & L4 & L5).
    apply lang_plus_cls in L1 as [ H1 A1 ]. apply lang_chr in L2 as ->.
    apply lang_plus_cls in L3 as [ H3 A3 ]. apply lang_chr in L4 as ->.
    apply lang_tld in L5.
    now exists local, dom, tld.
  - intros (local & dom & tld & H1 & A1 & H3 & A3 & Ht & ->).
    constructor; [ now apply lang_plus_cls | ].
    constructor; [ now apply lang_chr | ].
    constructor; [ now apply lang_plus_cls | ].
    constructor; [ now apply lang_chr | now apply lang_tld ].
Qed.

(** validate_email accepts exactly the addresses made of a non-empty
    local part over letters, digits and [._%+-], an [@], a non-empty mail
    domain over letters, digits, dots and hyphens, a dot and two or more
    letters; one newline after the address is accepted as well. *)
Theorem validate_email_spec (email : string) :
  validate_email email = true <->
  exists local dom tld,
    local <> "" /\ all_chars email_local_char local = true /\
    dom <> "" /\ all_chars email_domain_char dom = true /\
    tld_ok tld = true /\ with_newline (address_of local dom tld) email.
Proof.
  unfold validate_email, with_newline. rewrite fullmatch_spec. split.
  - intros (body & L & H).
    apply lang_email in L as (local & dom & tld & ? & ? & ? & ? & ? & ->).
    now exists local, dom, tld.
  - intros (local & dom & tld & ? & ? & ? & ? & ? & H).
    exists (address_of local dom tld). split; [ | exact H ].
    apply lang_email. now exists local, dom, tld.
Qed.

Lemma count_char_app (c : ascii) (a b : string) :
  count_char c (a ++ b) = (count_char c a + count_char c b)%nat.
Proof.
  induction a as [ | d a IH ]; simpl; [ reflexivity | ]. rewrite IH. lia.
Qed.

Lemma count_char_none (f : ascii -> bool) (c : ascii) (s : string) :
  f c = false -> all_chars f s = true -> count_char c s = O.
Proof.
  intros Hc. induction s as [ | d s IH ]; simpl; [ reflexivity | ].
  intros H. apply andb_true_iff in H as [ Hd Hs ]. rewrite (IH Hs).
  destruct (Ascii.eqb_spec d c) as [ -> | _ ]; [ congruence | reflexivity ].
Qed.

Lemma alpha_alnum (c : ascii) : Rx.is_alpha c = true -> Rx.is_alnum c = true.
Proof. unfold Rx.is_alnum. now intros ->. Qed.

(** An accepted address has exactly one [@], and no white space but the
    newline that may end it. *)
Theorem validate_email_one_at (email : string) :
  validate_email email = true ->
  count_char "@" email = 1%nat /\
  exists body,
    with_newline body email /\ nospace body = true.
Proof.
  intros H. apply fullmatch_spec in H as (body & L & H).
  apply lang_email in L as (local & dom & tld & _ & A1 & _ & A3 & Ht & ->).
  unfold tld_ok in Ht. apply andb_true_iff in Ht as [ _ At ].
  assert (Hcount : count_char "@" (address_of local dom tld) = 1%nat).
  { unfold address_of. rewrite !count_char_app.
    rewrite (count_char_none email_local_char "@" local eq_refl A1).
    rewrite (count_char_none email_domain_char "@" dom eq_refl A3).
    rewrite (count_char_none Rx.is_alpha "@" tld eq_refl At).
    reflexivity. }
  split.
  - destruct H as [ -> | -> ]; [ exact Hcount | ].
    rewrite count_char_app, Hcount. reflexivity.
  - exists (address_of local dom tld). split; [ exact H | ].
    unfold nospace, address_of. rewrite !all_chars_app.
    rewrite (all_chars_weaken email_local_char _ local), 
            (all_chars_weaken email_domain_char _ dom),
            (all_chars_weaken Rx.is_alpha _ tld); try assumption;
      try reflexivity;
      intros c; each_char c; reflexivity || discriminate.
Qed.

Lemma join_dot (labels : list string) :
  labels <> [] ->
  Py.join "." (labels ++ [""])%list = Py.join "." labels ++ ".".
Proof.
  induction labels as [ | l labels IH ]; intros H; [ congruence | ].
  destruct labels as [ | l' labels ]; [ reflexivity | ].
  rewrite <- app_comm_cons.
  rewrite !join_cons by discriminate.
  rewrite IH by discriminate. now rewrite !append_assoc.
Qed.

Lemma label_chars_in_mail_domain (c : ascii) :
  label_char c = true -> email_domain_char c = true.
Proof. each_char c; reflexivity || discriminate. Qed.

Lemma join_labels_chars (labels : list string) :
  Forall (fun l => label_ok l = true) labels ->
  all_chars email_domain_char (Py.join "." labels) = true.
Proof.
  induction 1 as [ | l labels Hl _ IH ]; [ reflexivity | ].
  assert (Al : all_chars email_domain_char l = true).
  { unfold label_ok in Hl. apply andb_true_iff in Hl as [ Hl _ ].
    apply andb_true_iff in Hl as [ Hl _ ].
    apply andb_true_iff in Hl as [ _ Hl ].
    exact (all_chars_weaken _ _ l label_chars_in_mail_domain Hl). }
  destruct labels as [ | l' labels ]; [ exact Al | ].
  rewrite join_cons by discriminate.
  now rewrite !all_chars_app, Al, IH.
Qed.

Lemma join_labels_nonempty (labels : list string) :
  labels <> [] -> Forall (fun l => label_ok l = true) labels ->
  Py.join "." labels <> "".
Proof.
  intros Hne Hall. destruct Hall as [ | l labels Hl _ ]; [ congruence | ].
  destruct l as [ | c l ]; [ discriminate | ].
  destruct labels; discriminate.
Qed.

(** Whatever validate_domain accepts, validate_email accepts as the
    domain of an address, after any non-empty local part over its
    characters. *)
Theorem validate_email_accepts_domains (local domain : string) :
  validate_domain domain = true ->
  local <> "" -> all_chars email_local_char local = true ->
  validate_email (local ++ "@" ++ domain) = true.
Proof.
  intros Hd Hl Al.
  apply fullmatch_spec in Hd as (body & L & Hd).
  apply lang_domain in L as (labels & tld & Hne & Hall & Ht & ->).
  apply fullmatch_spec.
  exists (address_of local (Py.join "." labels) tld). split.
  - apply lang_email. exists local, (Py.join "." labels), tld.
    repeat split; try assumption.
    + now apply join_labels_nonempty.
    + now apply join_labels_chars.
  - assert (E : domain_of labels tld = Py.join "." labels ++ "." ++ tld).
    { unfold domain_of. rewrite join_last, join_dot by assumption.
      now rewrite append_assoc. }
    unfold address_of. rewrite E in Hd.
    destruct Hd as [ -> | -> ]; [ now left | right ].
    now rewrite !append_assoc.
Qed.

(** ** The characters of a pattern *)

Lemma lang_class_all (p : ascii -> bool) (r : Rx.rx) (s : string) :
  class_all p r -> Rx.lang r s -> all_chars p s = true.
Proof.
  intros C L.
  induction L as [ | f c Hc | a b s1 s2 _ IH1 _ IH2 | a b s _ IH | a b s _ IH
                 | a | a s1 s2 _ IH1 _ IH2 ]; simpl in C.
  - reflexivity.
  - simpl. now rewrite (C _ Hc).
  - destruct C as [ Ca Cb ]. now rewrite all_chars_app, IH1, IH2.
  - now apply IH.
  - now apply IH.
  - reflexivity.
  - now rewrite all_chars_app, IH1, IH2.
Qed.

Lemma class_all_opt (p : ascii -> bool) (a : Rx.rx) :
  class_all p a -> class_all p (Rx.Opt a).
Proof. now split. Qed.

Lemma class_all_plus (p : ascii -> bool) (a : Rx.rx) :
  class_all p a -> class_all p (Rx.Plus a).
Proof. now split. Qed.

Lemma class_all_exactly (p : ascii -> bool) (n : nat) (a : Rx.rx) :
  class_all p a -> class_all p (Rx.Exactly n a).
Proof. intros C. induction n; simpl; [ exact I | now split ]. Qed.

Lemma class_all_upto (p : ascii -> bool) (n : nat) (a : Rx.rx) :
  class_all p a -> class_all p (Rx.UpTo n a).
Proof. intros C. induction n; simpl; [ exact I | now repeat split ]. Qed.

Lemma class_all_between (p : ascii -> bool) (lo hi : nat) (a : Rx.rx) :
  class_all p a -> class_all p (Rx.Between lo hi a).
Proof.
  intros C. split; [ now apply class_all_exactly | now apply class_all_upto ].
Qed.

Lemma class_all_atleast (p : ascii -> bool) (n : nat) (a : Rx.rx) :
  class_all p a -> class_all p (Rx.AtLeast n a).
Proof. intros C. split; [ now apply class_all_exactly | exact C ]. Qed.

(** Breaks a pattern down to its classes, and settles each class by
    going through the characters. *)
Ltac by_classes :=
  repeat
    match goal with
      | |- True => exact I
      | |- class_all _ Rx.Eps => exact I
      | |- class_all _ (Rx.Opt _) => apply class_all_opt
      | |- class_all _ (Rx.Plus _) => apply class_all_plus
      | |- class_all _ (Rx.Between _ _ _) => apply class_all_between
      | |- class_all _ (Rx.AtLeast _ _) => apply class_all_atleast
      | |- class_all _ (Rx.Seq _ _) => split
      | |- class_all _ (Rx.Alt _ _) => split
      | |- class_all _ (Rx.Cls _) =>
          let c := fresh "c" in
          intros c; each_char c; reflexivity || discriminate
      | |- class_all _ (Rx.Chr _) =>
          let c := fresh "c" in
          intros c; each_char c; reflexivity || discriminate
      | |- class_all _ (Rx.Text _ _) => cbn [Rx.Text]
    end.

Lemma label_dot_nospace :
  class_all (fun c => negb (Py.isspace c)) label_dot.
Proof. unfold label_dot, alnum. by_classes. Qed.

Lemma domain_pattern_nospace :
  class_all (fun c => negb (Py.isspace c)) domain_pattern.
Proof.
  unfold domain_pattern, alpha.
  split; [ apply class_all_plus, label_dot_nospace | by_classes ].
Qed.

Lemma email_pattern_nospace :
  class_all (fun c => negb (Py.isspace c)) email_pattern.
Proof. unfold email_pattern, alpha. by_classes. Qed.

Lemma url_rest_nospace :
  class_all (fun c => negb (Py.isspace c)) url_rest.
Proof.
  unfold url_rest, url_host, url_port, url_path, ipv4, alpha, digit,
    nonspace, slash_or_query.
  split; [ split | ].
  - split; [ apply class_all_plus, label_dot_nospace | by_classes ].
  - by_classes.
  - by_classes.
Qed.

Lemma url_pattern_nospace :
  class_all (fun c => negb (Py.isspace c)) url_pattern.
Proof.
  unfold url_pattern.
  split; [ by_classes | ]. split; [ by_classes | ].
  split; [ by_classes | apply url_rest_nospace ].
Qed.

Lemma nospace_one_line (s : string) : nospace s = true -> one_line s = true.
Proof.
  unfold nospace. induction s as [ | c s IH ]; simpl; [ reflexivity | ].
  intros H. apply andb_true_iff in H as [ Hc Hs ]. rewrite (IH Hs).
  revert Hc. each_char c; reflexivity || discriminate.
Qed.

Lemma one_line_app (a b : string) :
  one_line (a ++ b) = one_line a && one_line b.
Proof.
  induction a as [ | c a IH ]; simpl; [ reflexivity | ].
  now rewrite IH, andb_assoc.
Qed.

Lemma append_cancel_r (a b t : string) : a ++ t = b ++ t -> a = b.
Proof.
  revert b. induction a as [ | x a IH ]; intros b E.
  - destruct b as [ | y b ]; [ reflexivity | ].
    apply (f_equal String.length) in E. simpl in E.
    rewrite append_length in E. lia.
  - destruct b as [ | y b ].
    + apply (f_equal String.length) in E. simpl in E.
      rewrite append_length in E. lia.
    + simpl in E. injection E as -> E. now rewrite (IH _ E).
Qed.

(** For a pattern without white space, a final newline changes nothing. *)
Lemma fullmatch_final_newline (r : Rx.rx) (s : string) :
  class_all (fun c => negb (Py.isspace c)) r ->
  one_line s = true ->
  Rx.fullmatch r (s ++ String Py.nl "") = Rx.fullmatch r s.
Proof.
  intros C Hs.
  assert (Hbody : forall body, Rx.lang r body -> one_line body = true).
  { intros body L. apply nospace_one_line. exact (lang_class_all _ _ _ C L). }
  apply eq_true_iff_eq. rewrite !fullmatch_spec. split.
  - intros (body & L & [ E | E ]).
    + apply Hbody in L. rewrite <- E, one_line_app in L.
      rewrite andb_comm in L. discriminate.
    + apply append_cancel_r in E. subst. exists body. split; [ exact L | now left ].
  - intros (body & L & [ E | E ]).
    + subst. exists body. split; [ exact L | now right ].
    + rewrite E, one_line_app, andb_comm in Hs. discriminate.
Qed.

(** The three validators do not see one newline at the end of the value:
    a value of one line is accepted with the newline exactly when it is
    accepted without. *)
Theorem validators_ignore_final_newline (value : string) :
  one_line value = true ->
  validate_domain (value ++ String Py.nl "") = validate_domain value /\
  validate_email (value ++ String Py.nl "") = validate_email value /\
  (Py.isascii value = true ->
   validate_url (value ++ String Py.nl "") = validate_url value).
Proof.
  intros H. unfold validate_domain, validate_email, validate_url.
  repeat split; intros; apply fullmatch_final_newline; try assumption.
  - apply domain_pattern_nospace.
  - apply email_pattern_nospace.
  - apply url_pattern_nospace.
Qed.

(** ** URLs *)

Lemma lang_text_ci (t s : string) :
  Rx.lang (Rx.Text true t) s -> Py.lower s = Py.lower t.
Proof.
  revert s. induction t as [ | c t IH ]; intros s L; cbn [Rx.Text] in L.
  - apply lang_eps in L. now subst.
  - apply lang_seq in L as (s1 & s2 & -> & L1 & L2).
    apply lang_cls in L1 as (d & -> & Hd). apply IH in L2.
    unfold Rx.same_char in Hd. apply Ascii.eqb_eq in Hd.
    unfold Py.lower in *. simpl. now rewrite Hd, L2.
Qed.

Lemma lang_colon_slashes (s : string) :
  Rx.lang (Rx.Text true "://") s -> s = "://".
Proof.
  cbn [Rx.Text]. intros L.
  apply lang_seq in L as (s1 & r1 & -> & L1 & L).
  apply lang_seq in L as (s2 & r2 & -> & L2 & L).
  apply lang_seq in L as (s3 & r3 & -> & L3 & L).
  apply lang_eps in L as ->.
  apply lang_cls in L1 as (c1 & -> & H1).
  apply lang_cls in L2 as (c2 & -> & H2).
  apply lang_cls in L3 as (c3 & -> & H3).
  assert (E1 : c1 = ":"%char) by (revert H1; each_char c1; reflexivity || discriminate).
  assert (E2 : c2 = "/"%char) by (revert H2; each_char c2; reflexivity || discriminate).
  assert (E3 : c3 = "/"%char) by (revert H3; each_char c3; reflexivity || discriminate).
  now subst.
Qed.

Lemma lower_empty (s : string) : Py.lower s = "" -> s = "".
Proof. destruct s; [ reflexivity | discriminate ]. Qed.

Lemma lang_url_host_nonempty (h : string) : Rx.lang url_host h -> h <> "".
Proof.
  unfold url_host. intros L E. subst.
  apply lang_alt in L as [ L | L ]; [ | apply lang_alt in L as [ L | L ] ].
  - apply lang_seq in L as (s1 & s2 & E & L1 & _).
    apply lang_labels_plus in L1 as (labels & Hne & Hall & ->).
    rewrite join_dot in E by assumption.
    apply (f_equal String.length) in E. rewrite !append_length in E.
    simpl in E. lia.
  - apply lang_text_ci in L. discriminate.
  - unfold ipv4 in L. apply lang_seq in L as (s1 & s2 & E & L1 & _).
    apply lang_between_cls in L1 as [ Hn _ ]; [ | lia ].
    apply (f_equal String.length) in E. rewrite append_length in E.
    simpl in E. lia.
Qed.

(** An accepted URL of ASCII characters starts with [http://] or
    [https://], in any letter case, goes on after it, and holds no white
    space but the newline that may end it. *)
Theorem validate_url_shape (url : string) :
  Py.isascii url = true ->
  validate_url url = true ->
  exists scheme rest,
    with_newline (scheme ++ "://" ++ rest) url /\
    (Py.lower scheme = "http" \/ Py.lower scheme = "https") /\
    rest <> "" /\ nospace (scheme ++ "://" ++ rest) = true.
Proof.
  intros _ H. apply fullmatch_spec in H as (body & L & H).
  pose proof (lang_class_all _ _ _ url_pattern_nospace L) as Hns.
  unfold url_pattern in L.
  apply lang_seq in L as (s1 & r1 & -> & L1 & L).
  apply lang_seq in L as (s2 & r2 & -> & L2 & L).
  apply lang_seq in L as (s3 & rest & -> & L3 & L).
  apply lang_text_ci in L1. apply lang_colon_slashes in L3 as ->.
  exists (s1 ++ s2), rest. rewrite append_assoc. repeat split.
  - exact H.
  - apply lang_opt in L2 as [ L2 | -> ].
    + right. apply lang_cls in L2 as (c & -> & Hc).
      unfold Rx.same_char in Hc. apply Ascii.eqb_eq in Hc.
      rewrite lower_app, L1. unfold Py.lower. simpl. now rewrite <- Hc.
    + left. now rewrite append_nil_r.
  - unfold url_rest in L. apply lang_seq in L as (h & r & -> & Lh & _).
    apply lang_url_host_nonempty in Lh. destruct h; [ congruence | discriminate ].
  - exact Hns.
Qed.

Lemma url_after_scheme (rest : string) :
  validate_url ("https://" ++ rest) = Rx.matches url_rest Rx.at_end rest /\
  validate_url ("http://" ++ rest) = Rx.matches url_rest Rx.at_end rest.
Proof.
  unfold validate_url, Rx.fullmatch, url_pattern.
  generalize url_rest. intros r. simpl.
  split; now destruct (Rx.matches r Rx.at_end rest).
Qed.

Lemma trailing_stop (f : ascii -> bool) (x t : string) (c : ascii) :
  f c = false -> all_chars f t = true ->
  trailing f (x ++ String c t) = String.length t.
Proof.
  intros Hc Ht.
  assert (Hfalse : forall y, all_chars f (y ++ String c t) = false).
  { intros y. rewrite all_chars_app. simpl. rewrite Hc.
    now rewrite andb_false_r. }
  induction x as [ | y x IH ].
  - simpl. rewrite Hc. simpl. destruct t as [ | d t ]; [ reflexivity | ].
    cbn [trailing]. now rewrite Ht.
  - cbn [append trailing].
    rewrite (Hfalse (String y x) : all_chars f (String y (x ++ String c t)) = false).
    exact IH.
Qed.

Lemma domain_of_dot (labels : list string) (tld : string) :
  labels <> [] ->
  domain_of labels tld = Py.join "." labels ++ String "." tld.
Proof.
  intros H. unfold domain_of. rewrite join_last, join_dot by assumption.
  now rewrite append_assoc.
Qed.

Lemma digit_not_alpha (c : ascii) :
  Rx.is_digit c = true -> Rx.is_alpha c = false.
Proof. each_char c; reflexivity || discriminate. Qed.

(** What follows the scheme, when it is a domain name: its last label
    must have six letters at most. *)
Lemma url_rest_domain (labels : list string) (tld : string) :
  labels <> [] -> Forall (fun l => label_ok l = true) labels ->
  tld_ok tld = true ->
  (exists s1 s2, domain_of labels tld = s1 ++ s2 /\
     Rx.lang url_rest s1 /\ Rx.at_end s2 = true) <->
  (String.length tld <= 6)%nat.
Proof.
  intros Hne Hall Ht.
  pose proof (domain_of_dot labels tld Hne) as Ed.
  pose proof Ht as Ht'. unfold tld_ok in Ht'.
  apply andb_true_iff in Ht' as [ Hlen At ]. apply Nat.leb_le in Hlen.
  assert (Htrail : trailing Rx.is_alpha (domain_of labels tld) = String.length tld).
  { rewrite Ed. now apply trailing_stop. }
  assert (Hchars : all_chars email_domain_char (domain_of labels tld) = true).
  { rewrite Ed, all_chars_app, (join_labels_chars _ Hall).
    cbn [all_chars andb]. change (email_domain_char ".") with true.
    cbn [andb].
    apply (all_chars_weaken Rx.is_alpha); [ | exact At ].
    intros c. each_char c; reflexivity || discriminate. }
  assert (Hna : all_chars Rx.is_alpha (domain_of labels tld) = false).
  { rewrite Ed, all_chars_app. simpl. now rewrite andb_false_r. }
  split.
  - intros (s1 & s2 & E & L & Hend).
    rewrite E in Hchars.
    rewrite all_chars_app in Hchars. apply andb_true_iff in Hchars as [ C1 C2 ].
    apply at_end_cases in Hend as [ -> | -> ]; [ | discriminate ].
    rewrite append_nil_r in E.
    unfold url_rest in L.
    apply lang_seq in L as (h & r & -> & Lh & L).
    apply lang_seq in L as (po & pa & -> & Lpo & Lpa).
    rewrite !all_chars_app in C1.
    apply andb_true_iff in C1 as [ Ch C1 ].
    apply andb_true_iff in C1 as [ Cpo Cpa ].
    assert (po = "") as ->.
    { unfold url_port in Lpo. apply lang_opt in Lpo as [ Lpo | -> ]; [ | reflexivity ].
      apply lang_seq in Lpo as (a & b & -> & La & _).
      apply lang_chr in La as ->. discriminate. }
    assert (pa = "") as ->.
    { unfold url_path, slash_or_query in Lpa.
      apply lang_alt in Lpa as [ Lpa | Lpa ].
      - apply lang_opt in Lpa as [ Lpa | -> ]; [ | reflexivity ].
        apply lang_chr in Lpa as ->. discriminate.
      - apply lang_seq in Lpa as (a & b & -> & La & _).
        apply lang_cls in La as (c & -> & Hc). simpl in Cpa.
        apply andb_true_iff in Cpa as [ Cc _ ].
        revert Hc Cc. each_char c; discriminate. }
    simpl in E. rewrite append_nil_r in E.
    rewrite E in Htrail, Hna. clear E Ed Ch Cpo Cpa C2 Lpo Lpa.
    unfold url_host in Lh.
    apply lang_alt in Lh as [ Lh | Lh ]; [ | apply lang_alt in Lh as [ Lh | Lh ] ].
    + apply lang_seq in Lh as (p & r & -> & Lp & Lr).
      apply lang_seq in Lr as (t & o & -> & Lt & Lo).
      apply lang_labels_plus in Lp as (labels' & Hne' & _ & ->).
      unfold alpha in Lt. apply lang_between_cls in Lt as [ Hn A ]; [ | lia ].
      rewrite join_dot in Htrail by assumption.
      apply lang_opt in Lo as [ Lo | -> ].
      * apply lang_chr in Lo as ->.
        assert (Ex : (Py.join "." labels' ++ ".") ++ t ++ "."
                     = ((Py.join "." labels' ++ ".") ++ t) ++ String "." "")
          by now rewrite !append_assoc.
        rewrite Ex, trailing_stop in Htrail by reflexivity.
        simpl in Htrail. lia.
      * assert (Ex : (Py.join "." labels' ++ ".") ++ t ++ ""
                     = Py.join "." labels' ++ String "." t)
          by now rewrite append_nil_r, append_assoc.
        rewrite Ex, trailing_stop in Htrail by (reflexivity || assumption).
        lia.
    + assert (Ca : class_all Rx.is_alpha (Rx.Text true "localhost"))
        by by_classes.
      pose proof (lang_class_all _ _ _ Ca Lh) as Ah. congruence.
    + unfold ipv4, digit in Lh.
      apply lang_seq in Lh as (a1 & r1 & -> & _ & Lh).
      apply lang_seq in Lh as (a2 & r2 & -> & _ & Lh).
      apply lang_seq in Lh as (a3 & r3 & -> & _ & Lh).
      apply lang_seq in Lh as (a4 & r4 & -> & _ & Lh).
      apply lang_seq in Lh as (a5 & r5 & -> & _ & Lh).
      apply lang_seq in Lh as (a6 & a7 & -> & _ & Lh).
      apply lang_between_cls in Lh as [ Hn A ]; [ | lia ].
      destruct (string_snoc a7) as (x & g & ->).
      { intros ->. simpl in Hn. lia. }
      rewrite all_chars_app in A. apply andb_true_iff in A as [ _ A ].
      simpl in A. rewrite andb_true_r in A. apply digit_not_alpha in A.
      rewrite <- !append_assoc in Htrail.
      rewrite trailing_stop in Htrail by (reflexivity || assumption).
      simpl in Htrail. lia.
  - intros H6. exists (domain_of labels tld), "".
    split; [ now rewrite append_nil_r | ]. split; [ | reflexivity ].
    unfold url_rest.
    rewrite <- (append_nil_r (domain_of labels tld)).
    constructor.
    + unfold url_host. apply Rx.LAltL. unfold domain_of. rewrite join_last.
      constructor; [ apply lang_labels_plus; now exists labels | ].
      rewrite <- (append_nil_r tld). constructor.
      * unfold alpha. apply lang_between_cls; [ lia | ]. now split.
      * apply lang_opt. now right.
    + change "" with ("" ++ "")%string. constructor.
      * unfold url_port. apply lang_opt. now right.
      * unfold url_path. apply Rx.LAltL. apply lang_opt. now right.
Qed.

(** A domain name that validate_domain accepts makes, after [https://]
    or [http://], a URL that validate_url accepts exactly when its last
    label has six letters at most. *)
Theorem validate_url_of_domain (labels : list string) (tld : string) :
  labels <> [] -> Forall (fun l => label_ok l = true) labels ->
  tld_ok tld = true ->
  validate_domain (domain_of labels tld) = true /\
  validate_url ("https://" ++ domain_of labels tld)
    = (String.length tld <=? 6)%nat /\
  validate_url ("http://" ++ domain_of labels tld)
    = (String.length tld <=? 6)%nat.
Proof.
  intros Hne Hall Ht. split.
  - apply fullmatch_spec. exists (domain_of labels tld).
    split; [ | now left ]. apply lang_domain. now exists labels, tld.
  - destruct (url_after_scheme (domain_of labels tld)) as [ -> -> ].
    assert (E : Rx.matches url_rest Rx.at_end (domain_of labels tld)
                = (String.length tld <=? 6)%nat).
    { apply eq_true_iff_eq. rewrite Nat.leb_le.
      rewrite <- (url_rest_domain labels tld Hne Hall Ht). split.
      - apply matches_sound.
      - intros (s1 & s2 & -> & L & Hend). now apply matches_complete. }
    now rewrite E.
Qed.

Lemma validate_domain_spec_witness :
  exists labels tld,
    labels <> [] /\ Forall (fun l => label_ok l = true) labels /\
    tld_ok tld = true /\
    with_newline (domain_of labels tld) "mg.insightpulseai.com".
Proof.
  apply (proj1 (validate_domain_spec "mg.insightpulseai.com")).
  vm_compute. reflexivity.
Defined.

Lemma validate_email_spec_witness :
  validate_email "ops+audit@mg.insightpulseai.com" = true.
Proof.
  apply (proj2 (validate_email_spec "ops+audit@mg.insightpulseai.com")).
  exists "ops+audit", "mg.insightpulseai", "com".
  repeat split; try discriminate. now left.
Defined.

Lemma validate_email_one_at_witness :
  count_char "@" "ops@insightpulseai.com" = 1%nat /\
  exists body,
    with_newline body "ops@insightpulseai.com" /\ nospace body = true.
Proof. apply validate_email_one_at. vm_compute. reflexivity. Defined.

Lemma validate_email_accepts_domains_witness :
  validate_email ("ops" ++ "@" ++ "mg.insightpulseai.com") = true.
Proof.
  apply validate_email_accepts_domains.
  - vm_compute. reflexivity.
  - discriminate.
  - reflexivity.
Defined.

Lemma validators_ignore_final_newline_witness :
  validate_domain ("insightpulseai.com" ++ String Py.nl "")
    = validate_domain "insightpulseai.com" /\
  validate_email ("insightpulseai.com" ++ String Py.nl "")
    = validate_email "insightpulseai.com" /\
  (Py.isascii "insightpulseai.com" = true ->
   validate_url ("insightpulseai.com" ++ String Py.nl "")
     = validate_url "insightpulseai.com").
Proof. apply validators_ignore_final_newline. reflexivity. Defined.

Lemma validate_url_shape_witness :
  exists scheme rest,
    with_newline (scheme ++ "://" ++ rest) "HTTPS://insightpulseai.com/odoo" /\
    (Py.lower scheme = "http" \/ Py.lower scheme = "https") /\
    rest <> "" /\ nospace (scheme ++ "://" ++ rest) = true.
Proof.
  apply validate_url_shape.
  - reflexivity.
  - vm_compute. reflexivity.
Defined.

Lemma validate_url_of_domain_witness :
  validate_domain (domain_of [ "example" ] "technology") = true /\
  validate_url ("https://" ++ domain_of [ "example" ] "technology") = false /\
  validate_url ("http://" ++ domain_of [ "example" ] "technology") = false.
Proof.
  apply (validate_url_of_domain [ "example" ] "technology").
  - discriminate.
  - repeat constructor.
  - reflexivity.
Defined.
